(** * filter_conllu_boilerplate.py: streaming CoNLL-U boilerplate filter

    A shallow embedding of [src/filter_conllu_boilerplate.py] and the
    properties of its record segmentation and prefix filtering.

    Python [str] values are sequences of Unicode code points; they are
    modelled as lists of code points ([N]).  The file objects of the
    program are modelled by their contents: the input file by the text its
    bytes decode to, the output file by the text written to it (on the
    way to the file each LF becomes the line separator of the platform).
    The counters are Python integers (unbounded, never negative here) and
    are modelled as [nat]. *)

From Stdlib Require Import String Ascii.
From Stdlib Require DecimalString.
From Stdlib Require Import List NArith Bool Arith Lia.
Import ListNotations.

(** ** Python strings and the built-in string methods the program calls *)

Module PyStr.

Definition char := N.
Definition str := list char.

(** An ASCII literal of the source as a [str]. *)
Definition lit (s : string) : str := map N_of_ascii (list_ascii_of_string s).

Definition LF : char := 10%N.
Definition CR : char := 13%N.

(** [a == b] on strings. *)
Fixpoint str_eqb (a b : str) : bool :=
  match a, b with
  | [], [] => true
  | x :: a', y :: b' => N.eqb x y && str_eqb a' b'
  | _, _ => false
  end.

(** Truth value of a list: [if xs:]. *)
Definition truthy {A : Type} (xs : list A) : bool :=
  match xs with
  | [] => false
  | _ :: _ => true
  end.

(** [str.isspace] on one code point: the characters [str.strip()] removes
    when called without argument (CPython's whitespace table: the Unicode
    characters of bidirectional type WS, B or S, or category Zs). *)
Definition isspace (c : char) : bool :=
  (((0x09 <=? c) && (c <=? 0x0D)) ||
   ((0x1C <=? c) && (c <=? 0x20)) ||
   (c =? 0x85) || (c =? 0xA0) || (c =? 0x1680) ||
   ((0x2000 <=? c) && (c <=? 0x200A)) ||
   (c =? 0x2028) || (c =? 0x2029) || (c =? 0x202F) ||
   (c =? 0x205F) || (c =? 0x3000))%N.

(** Membership of a character in the [chars] argument of [rstrip]. *)
Definition in_chars (chars : str) (c : char) : bool :=
  existsb (N.eqb c) chars.

(** Removal of the leading characters that satisfy [p]. *)
Fixpoint lstrip_with (p : char -> bool) (s : str) : str :=
  match s with
  | [] => []
  | c :: s' => if p c then lstrip_with p s' else s
  end.

(** Removal of the trailing characters that satisfy [p]. *)
Fixpoint rstrip_with (p : char -> bool) (s : str) : str :=
  match s with
  | [] => []
  | c :: s' =>
      match rstrip_with p s' with
      | [] => if p c then [] else [c]
      | r => c :: r
      end
  end.

(** [s.strip()]: leading and trailing whitespace removed. *)
Definition strip (s : str) : str := lstrip_with isspace (rstrip_with isspace s).

(** [s.rstrip(chars)]. *)
Definition rstrip (s chars : str) : str := rstrip_with (in_chars chars) s.

(** [text.startswith(prefix)]. *)
Fixpoint startswith (text prefix : str) {struct prefix} : bool :=
  match prefix with
  | [] => true
  | p :: prefix' =>
      match text with
      | [] => false
      | t :: text' => N.eqb t p && startswith text' prefix'
      end
  end.

(** [s[n:]] for a non-negative [n]. *)
Definition slice_from (n : nat) (s : str) : str := skipn n s.

(** [s[:n]] for a non-negative [n]. *)
Definition slice_to (n : nat) (s : str) : str := firstn n s.

(** [sep.join(parts)]. *)
Fixpoint join (sep : str) (parts : list str) : str :=
  match parts with
  | [] => []
  | [x] => x
  | x :: rest => x ++ sep ++ join sep rest
  end.

End PyStr.

Import PyStr.

(** ** Text files

    [open(path, "r", encoding="utf-8")] opens the input in text mode with
    universal newlines: the line endings CR LF and CR of the file are
    translated to LF before the program sees them, and iterating over the
    file yields the text line by line, every line with its LF except
    possibly the last one.  *)

Module TextFile.

(** Universal-newline translation of the decoded text. *)
Fixpoint translate_newlines (s : str) : str :=
  match s with
  | [] => []
  | c :: s' =>
      if N.eqb c CR then
        match s' with
        | c' :: s'' =>
            if N.eqb c' LF then LF :: translate_newlines s''
            else LF :: translate_newlines s'
        | [] => [LF]
        end
      else c :: translate_newlines s'
  end.

(** The lines of a text, each with its terminating LF. *)
Fixpoint split_lines (s : str) : list str :=
  match s with
  | [] => []
  | c :: s' =>
      if N.eqb c LF then [c] :: split_lines s'
      else
        match split_lines s' with
        | [] => [[c]]
        | l :: ls => (c :: l) :: ls
        end
  end.

(** [for line in infile]: the lines the iteration yields on a file that
    holds [content]. *)
Definition iter_lines (content : str) : list str :=
  split_lines (translate_newlines content).

(** [open(path, "w", encoding="utf-8")] opens the output in text mode: each
    LF written reaches the file as [os.linesep], which depends on the
    platform. *)
Inductive platform : Type := Posix | Windows.

Definition linesep (pf : platform) : str :=
  match pf with
  | Posix => [LF]
  | Windows => [CR; LF]
  end.

(** The text of the file once [text] has been written to it. *)
Definition encode_newlines (pf : platform) (text : str) : str :=
  flat_map (fun c => if N.eqb c LF then linesep pf else [c]) text.

End TextFile.

Import TextFile.

(** ** The program *)

(** [DEFAULT_PATTERNS] (lines 20-43). *)
Definition DEFAULT_PATTERNS : list str :=
  map lit
    [ "frontiers-fpsyg-corpus.txt Journal Information";
      "Journal ID (publisher-id):";
      "Psychology Journal Abbreviation:";
      "Psychology ISSN:";
      "Publisher: Frontiers Research Foundation";
      "Article Information";
      "Copyright";
      "open-access:";
      "Received Day:";
      "Accepted Day:";
      "Electronic publication date:";
      "collection publication date:";
      "Volume:";
      "DOI:";
      "[doi:";
      "Front.";
      "____";
      "______";
      "________________________________________________________________";
      "____________________________________________________________________________________"
    ]%string.

(** The body of the loop of [load_patterns] (lines 50-53): the line is
    stripped, and appended unless it is empty or starts with [#]. *)
Definition load_patterns_step (patterns : list str) (line : str) : list str :=
  let line := strip line in
  if truthy line && negb (startswith line (lit "#"))
  then patterns ++ [line]
  else patterns.

(** [load_patterns] (lines 46-54) on a pattern file that holds [content]. *)
Definition load_patterns (content : str) : list str :=
  fold_left load_patterns_step (iter_lines content) [].

(** [matches_boilerplate] (lines 57-66): the loop returns [True] at the
    first pattern the text starts with. *)
Fixpoint matches_boilerplate (text : str) (patterns : list str) : bool :=
  match patterns with
  | [] => false
  | pattern :: rest =>
      if startswith text pattern then true
      else matches_boilerplate text rest
  end.

(** The marker of line 72. *)
Definition TEXT_MARKER : str := lit "# text = ".

(** [extract_text_from_record] (lines 69-74); [None] is [None]. *)
Fixpoint extract_text_from_record (record_lines : list str) : option str :=
  match record_lines with
  | [] => None
  | line :: rest =>
      if startswith line TEXT_MARKER
      then Some (rstrip (slice_from 9 line) [CR; LF])
      else extract_text_from_record rest
  end.

(** The state of [filter_conllu_stream]: its three local variables and the
    text written to [outfile] so far. *)
Record state : Type := mkState {
  outfile : str;
  total : nat;
  removed : nat;
  current_record : list str
}.

Definition initial : state :=
  {| outfile := []; total := 0; removed := 0; current_record := [] |}.

(** [outfile.write(s)]. *)
Definition write (s : str) (st : state) : state :=
  {| outfile := outfile st ++ s; total := total st;
     removed := removed st; current_record := current_record st |}.

(** The test of line 104. *)
Definition is_separator (line : str) : bool := str_eqb (strip line) [].

(** The decision on a completed record (lines 107-114, and again lines
    121-128): the record is written and counted in [total], or counted in
    [removed]. *)
Definition process_record (patterns : list str) (st : state) : state :=
  let text := extract_text_from_record (current_record st) in
  if match text with
     | None => true
     | Some t => negb (matches_boilerplate t patterns)
     end
  then
    let st1 := write (join [] (current_record st)) st in
    let st2 := write [LF] st1 in
    {| outfile := outfile st2; total := total st2 + 1;
       removed := removed st2; current_record := current_record st2 |}
  else
    {| outfile := outfile st; total := total st;
       removed := removed st + 1; current_record := current_record st |}.

(** The body of the loop over the input lines (lines 102-117). *)
Definition loop_body (patterns : list str) (st : state) (line : str) : state :=
  if is_separator line then
    if truthy (current_record st) then
      let st' := process_record patterns st in
      {| outfile := outfile st'; total := total st';
         removed := removed st'; current_record := [] |}
    else st
  else
    {| outfile := outfile st; total := total st;
       removed := removed st; current_record := current_record st ++ [line] |}.

(** The last record (lines 119-128). *)
Definition last_record (patterns : list str) (st : state) : state :=
  if truthy (current_record st) then process_record patterns st else st.

(** The run over the lines the input yields, from the initial state. *)
Definition run_lines (patterns : list str) (lines : list str) : state :=
  last_record patterns (fold_left (loop_body patterns) lines initial).

(** [filter_conllu_stream] (lines 77-130) on an input file that holds
    [input]: the text written to the output file and the returned pair.
    [buffer_size] only sizes the I/O buffers and is left out. *)
Definition filter_conllu_stream (input : str) (patterns : list str)
  : str * (nat * nat) :=
  let st := run_lines patterns (iter_lines input) in
  (outfile st, (total st, removed st)).

(** ** Records and decisions

    The loop interleaves two things: grouping the lines into records and
    deciding on each record.  The definitions below name the two, so that
    the properties of the run can be stated record by record. *)

(** The condition of lines 108 and 122 on a record. *)
Definition keeps (patterns : list str) (record : list str) : bool :=
  match extract_text_from_record record with
  | None => true
  | Some text => negb (matches_boilerplate text patterns)
  end.

(** What lines 110-111 (and 124-125) write for a record. *)
Definition record_block (record : list str) : str := concat record ++ [LF].

(** The buffer discipline of the loop with the decision left out: the
    records in the order in which the loop completes them, [current] being
    the buffer so far. *)
Fixpoint segment_from (current : list str) (lines : list str)
  : list (list str) :=
  match lines with
  | [] => if truthy current then [current] else []
  | line :: rest =>
      if is_separator line then
        if truthy current then current :: segment_from [] rest
        else segment_from [] rest
      else segment_from (current ++ [line]) rest
  end.

Definition segment (lines : list str) : list (list str) :=
  segment_from [] lines.

(** The output text and the two counters of a state. *)
Definition result : Type := (str * (nat * nat))%type.

Definition result_of (st : state) : result :=
  (outfile st, (total st, removed st)).

(** The effect of one decided record on the output and the counters. *)
Definition apply_record (patterns : list str) (acc : result)
  (record : list str) : result :=
  let '(out, (kept, dropped)) := acc in
  if keeps patterns record
  then (out ++ record_block record, (kept + 1, dropped))
  else (out, (kept, dropped + 1)).

Definition run_records (patterns : list str) (records : list (list str))
  : result :=
  fold_left (apply_record patterns) records ([], (0, 0)).

(** The separator test as the specification words it: the line has length
    0 once its line terminators CR and LF are stripped. *)
Definition terminator_blank (line : str) : bool :=
  Nat.eqb (length (rstrip line [CR; LF])) 0.

(** Input seen as groups of lines: blank lines first, then groups of
    content lines each followed by its blank lines, then possibly a last
    group that no blank line follows. *)
Definition is_content (line : str) : bool := negb (is_separator line).

Definition well_grouped (gs : list str * list str) : bool :=
  truthy (fst gs) && forallb is_content (fst gs) &&
  truthy (snd gs) && forallb is_separator (snd gs).

Definition grouped_input (lead : list str)
  (groups : list (list str * list str)) (tail : list str) : list str :=
  lead ++ flat_map (fun gs => fst gs ++ snd gs) groups ++ tail.

(** ** Shape of the lines a text file yields *)

(** A line that ends with its LF and has no other LF. *)
Definition terminated (line : str) : Prop :=
  exists body, line = body ++ [LF] /\ ~ In LF body.

(** The lines of a text: every line is terminated, except that the last
    one may be a non-empty run of characters without LF. *)
Inductive file_lines : list str -> Prop :=
| file_lines_nil : file_lines []
| file_lines_last : forall u, u <> [] -> ~ In LF u -> file_lines [u]
| file_lines_cons : forall body rest,
    ~ In LF body -> file_lines rest -> file_lines ((body ++ [LF]) :: rest).

(** ** Pattern files *)

(** A string without whitespace at either end. *)
Definition stripped (s : str) : bool :=
  match s with
  | [] => true
  | c :: _ => negb (isspace c) && negb (isspace (last s c))
  end.

(** A pattern that a pattern file can hold on a line of its own. *)
Definition loadable (pattern : str) : bool :=
  truthy pattern && stripped pattern &&
  negb (startswith pattern (lit "#")) &&
  forallb (fun c => negb (N.eqb c LF || N.eqb c CR)) pattern.

(** The text of a pattern file with the given patterns, one per line. *)
Definition dump_patterns (patterns : list str) : str :=
  concat (map (fun pattern => pattern ++ [LF]) patterns).

(** What one line of a pattern file contributes. *)
Definition pattern_of_line (line : str) : list str :=
  if truthy (strip line) && negb (startswith (strip line) (lit "#"))
  then [strip line]
  else [].

(** ** The driver

    [main] (lines 133-183) is modelled up to its call of
    [filter_conllu_stream] at line 177, which is where it starts to change
    files, and again after that call.  Before the call it only asks
    questions of the file system; these are taken as they are answered.
    The command line is taken as parsed. *)

Module Driver.

(** The namespace [parse_args] returns. *)
Record arguments : Type := {
  arg_input : str;
  arg_output : str;
  arg_patterns : option str;
  arg_verbose : bool
}.

(** What [main] asks of the file system before line 177.
    [read_text path] is the text that [open(path, "r", encoding="utf-8")]
    yields when read to its end, [None] when opening or reading raises;
    [path_exists path] is [Path(path).exists()]; [same_path a b] is
    [Path(a).resolve() == Path(b).resolve()]. *)
Record filesystem : Type := {
  read_text : str -> option str;
  path_exists : str -> bool;
  same_path : str -> str -> bool
}.

(** How far [main] gets: an exception of [load_patterns] propagates,
    [sys.exit(message)] is called, or line 177 is reached and
    [filter_conllu_stream] is called with these arguments. *)
Inductive progress : Type :=
| Raised
| Exited (message : str)
| Filtering (input_path output_path : str) (patterns : list str).

Definition TAB : char := 9%N.

(** [str(n)] for a non-negative integer. *)
Definition str_of_int (n : nat) : str :=
  lit (DecimalString.NilEmpty.string_of_uint (Nat.to_uint n)).

(** [print(text, file=sys.stderr)] when [--verbose] is given. *)
Definition say (args : arguments) (text : str) : str :=
  if arg_verbose args then text ++ [LF] else [].

(** Lines 156-163: the patterns of the run and what is printed to the
    standard error, [None] when [load_patterns] raises. *)
Definition choose_patterns (fs : filesystem) (args : arguments)
  : option (list str * str) :=
  let default :=
    let patterns := DEFAULT_PATTERNS in
    Some (patterns,
          say args (lit "Using " ++ str_of_int (length patterns) ++
                    lit " default patterns")) in
  match arg_patterns args with
  | Some path =>
      if truthy path then
        match read_text fs path with
        | Some content =>
            let patterns := load_patterns content in
            Some (patterns,
                  say args (lit "Loaded " ++ str_of_int (length patterns) ++
                            lit " patterns from " ++ path))
        | None => None
        end
      else default
  | None => default
  end.

(** [main] from line 153 to line 177: what it has printed to the standard
    error and how far it got. *)
Definition main (fs : filesystem) (args : arguments) : str * progress :=
  match choose_patterns fs args with
  | None => ([], Raised)
  | Some (patterns, err) =>
      if negb (path_exists fs (arg_input args)) then
        (err, Exited (lit "Error: Input file '" ++ arg_input args ++
                      lit "' not found"))
      else if same_path fs (arg_input args) (arg_output args) then
        (err, Exited (lit "Error: Input and output files are the same - aborting to prevent data loss"))
      else
        (err ++ say args (lit "Processing " ++ arg_input args ++ lit " -> " ++
                          arg_output args ++ lit "..."),
         Filtering (arg_input args) (arg_output args) patterns)
  end.

(** Lines 179-183, once [filter_conllu_stream] has returned
    [(total, removed)]: what is printed to the standard output and to the
    standard error. *)
Definition report (args : arguments) (total removed : nat) : str * str :=
  if arg_verbose args
  then ([], lit "Done. Kept " ++ str_of_int total ++
            lit " records, removed " ++ str_of_int removed ++
            lit " boilerplate records." ++ [LF])
  else (str_of_int total ++ [TAB] ++ str_of_int removed ++ [LF], []).

End Driver.

(** ** Python string methods *)

Section StringLemmas.

Variable p : char -> bool.

Lemma str_eqb_nil (s : str) : str_eqb s [] = true <-> s = [].
Proof.
  destruct s; simpl; split; intro H; try reflexivity; discriminate.
Qed.

Lemma lstrip_with_nil (s : str) :
  lstrip_with p s = [] <-> forallb p s = true.
Proof.
  induction s as [|c s IH]; simpl.
  - tauto.
  - destruct (p c); simpl; [exact IH|].
    split; discriminate.
Qed.

Lemma rstrip_with_nil (s : str) :
  rstrip_with p s = [] <-> forallb p s = true.
Proof.
  induction s as [|c s IH]; simpl.
  - tauto.
  - destruct (rstrip_with p s) as [|r rs] eqn:E.
    + destruct (p c); simpl.
      * split; intros _; [apply IH|]; reflexivity.
      * split; discriminate.
    + split; [discriminate|].
      intro H. apply andb_true_iff in H. destruct H as [_ H].
      apply IH in H. discriminate.
Qed.

(** A string splits into what [rstrip] keeps and the stripped tail. *)
Lemma rstrip_with_split (s : str) :
  exists tail, s = rstrip_with p s ++ tail /\ forallb p tail = true.
Proof.
  induction s as [|c s (tail & Hs & Ht)]; simpl.
  - exists []. split; reflexivity.
  - destruct (rstrip_with p s) as [|r rs] eqn:E.
    + simpl in Hs. subst tail.
      destruct (p c) eqn:Ec.
      * exists (c :: s). simpl. rewrite Ec, Ht. split; reflexivity.
      * exists s. split; [reflexivity|assumption].
    + exists tail. split; [|assumption].
      simpl. rewrite Hs at 1. reflexivity.
Qed.

(** What [rstrip] keeps does not end with a stripped character. *)
Lemma rstrip_with_last (s : str) (v : str) (c : char) :
  rstrip_with p s = v ++ [c] -> p c = false.
Proof.
  revert v. induction s as [|a s IH]; simpl; intros v H.
  - destruct v; discriminate.
  - destruct (rstrip_with p s) as [|r rs] eqn:E.
    + destruct (p a) eqn:Ea.
      * destruct v; discriminate.
      * destruct v as [|x [|y v]]; try discriminate.
        injection H as <-. exact Ea.
    + destruct v as [|x v].
      * discriminate.
      * injection H as _ H. exact (IH v H).
Qed.

(** Characters that [rstrip] removes may be appended without effect. *)
Lemma rstrip_with_app (s tail : str) :
  forallb p tail = true -> rstrip_with p (s ++ tail) = rstrip_with p s.
Proof.
  intro Ht. induction s as [|c s IH]; simpl.
  - apply rstrip_with_nil. exact Ht.
  - rewrite IH. reflexivity.
Qed.

Lemma strip_with_nil (s : str) :
  lstrip_with p (rstrip_with p s) = [] <-> forallb p s = true.
Proof.
  split; intro H.
  - apply rstrip_with_nil.
    apply lstrip_with_nil in H.
    destruct (rstrip_with p s) as [|r rs] eqn:E; [reflexivity|].
    destruct (@exists_last _ (r :: rs)) as (v & c & Hv); [discriminate|].
    rewrite Hv in E. apply rstrip_with_last in E.
    rewrite Hv, forallb_app in H. simpl in H.
    rewrite E in H. rewrite andb_false_r in H. discriminate.
  - apply rstrip_with_nil in H. rewrite H. reflexivity.
Qed.

End StringLemmas.

Lemma startswith_prefix (text prefix : str) :
  startswith text prefix = true <-> exists rest, text = prefix ++ rest.
Proof.
  revert text. induction prefix as [|c prefix IH]; intros text; simpl.
  - split; [intros _; exists text | intros _]; reflexivity.
  - destruct text as [|t text].
    + split; [discriminate | intros (rest & H); discriminate].
    + rewrite andb_true_iff, N.eqb_eq, IH. split.
      * intros (-> & rest & ->). exists rest. reflexivity.
      * intros (rest & H). injection H as -> ->.
        split; [reflexivity | exists rest; reflexivity].
Qed.

(** [text.startswith(prefix)] is the slice comparison
    [text[0:len(prefix)] == prefix]. *)
Lemma startswith_slice (text prefix : str) :
  startswith text prefix = true <-> slice_to (length prefix) text = prefix.
Proof.
  unfold slice_to. rewrite startswith_prefix. split.
  - intros (rest & ->). rewrite firstn_app, Nat.sub_diag, firstn_all.
    simpl. apply app_nil_r.
  - intro H. exists (skipn (length prefix) text).
    rewrite <- H at 1. symmetry. apply firstn_skipn.
Qed.

Lemma startswith_short (text prefix : str) :
  length text < length prefix -> startswith text prefix = false.
Proof.
  intro Hlen. destruct (startswith text prefix) eqn:E; [|reflexivity].
  apply startswith_prefix in E. destruct E as (rest & ->).
  rewrite length_app in Hlen. lia.
Qed.

Lemma startswith_nil (text : str) : startswith text [] = true.
Proof. reflexivity. Qed.

Lemma join_empty (parts : list str) : join [] parts = concat parts.
Proof.
  induction parts as [|x [|y parts] IH].
  - reflexivity.
  - simpl. symmetry. apply app_nil_r.
  - change (x ++ [] ++ join [] (y :: parts) = x ++ concat (y :: parts)).
    rewrite IH. reflexivity.
Qed.

(** ** Prefix matching *)

Lemma matches_boilerplate_exists (text : str) (patterns : list str) :
  matches_boilerplate text patterns = true <->
  exists pattern, In pattern patterns /\ startswith text pattern = true.
Proof.
  induction patterns as [|q patterns IH]; simpl.
  - split; [discriminate | intros (pattern & [] & _)].
  - destruct (startswith text q) eqn:E.
    + split; [|reflexivity]. intros _. exists q. auto.
    + rewrite IH. split.
      * intros (pattern & Hin & Hs). exists pattern. auto.
      * intros (pattern & [<- | Hin] & Hs); [congruence|].
        exists pattern. auto.
Qed.

(** ** Field extraction *)

Lemma extract_none (record : list str) :
  extract_text_from_record record = None <->
  forall line, In line record -> startswith line TEXT_MARKER = false.
Proof.
  induction record as [|l record IH]; cbn [extract_text_from_record In].
  - split; [intros _ line [] | reflexivity].
  - destruct (startswith l TEXT_MARKER) eqn:E.
    + split; [discriminate|]. intro H.
      rewrite (H l (or_introl eq_refl)) in E. discriminate.
    + rewrite IH. split.
      * intros H line [<- | Hin]; auto.
      * intros H line Hin. apply H. right. exact Hin.
Qed.

Lemma extract_first (before after : list str) (line : str) :
  (forall l, In l before -> startswith l TEXT_MARKER = false) ->
  startswith line TEXT_MARKER = true ->
  extract_text_from_record (before ++ line :: after) =
  Some (rstrip (slice_from 9 line) [CR; LF]).
Proof.
  intros Hb Hl. induction before as [|b before IH]; cbn [extract_text_from_record app].
  - rewrite Hl. reflexivity.
  - rewrite (Hb b (or_introl eq_refl)). apply IH.
    intros l Hin. apply Hb. right. exact Hin.
Qed.

Lemma in_chars_crlf (c : char) :
  in_chars [CR; LF] c = true <-> c = CR \/ c = LF.
Proof.
  unfold in_chars. simpl. rewrite !orb_true_iff, !N.eqb_eq.
  intuition discriminate.
Qed.

(** ** The loop, record by record *)

Lemma process_record_result (patterns : list str) (st : state) :
  result_of (process_record patterns st) =
  apply_record patterns (result_of st) (current_record st) /\
  current_record (process_record patterns st) = current_record st.
Proof.
  unfold process_record, apply_record, result_of, keeps, record_block, write.
  destruct (extract_text_from_record (current_record st)) as [text|];
    [destruct (matches_boilerplate text patterns)|];
    cbn [negb outfile total removed current_record];
    rewrite ?join_empty, <- ?app_assoc; split; reflexivity.
Qed.

(** The loop followed by the treatment of the last record decides on the
    records of [segment_from], one after the other. *)
Lemma loop_segment_from (patterns : list str) (lines : list str) :
  forall st,
    result_of (last_record patterns (fold_left (loop_body patterns) lines st)) =
    fold_left (apply_record patterns)
      (segment_from (current_record st) lines) (result_of st).
Proof.
  induction lines as [|line rest IH]; intros st.
  - cbn [fold_left segment_from]. unfold last_record.
    destruct (truthy (current_record st)); [|reflexivity].
    cbn [fold_left]. apply process_record_result.
  - cbn [fold_left segment_from]. rewrite IH. unfold loop_body.
    destruct (is_separator line); [|reflexivity].
    destruct (current_record st) as [|l record] eqn:Ec; cbn [truthy].
    + rewrite Ec. reflexivity.
    + cbn [fold_left current_record result_of outfile total removed].
      rewrite <- Ec.
      destruct (process_record_result patterns st) as [<- _].
      reflexivity.
Qed.

Lemma run_lines_records (patterns : list str) (lines : list str) :
  result_of (run_lines patterns lines) = run_records patterns (segment lines).
Proof. apply (loop_segment_from patterns lines initial). Qed.

Lemma filter_conllu_stream_records (input : str) (patterns : list str) :
  filter_conllu_stream input patterns =
  run_records patterns (segment (iter_lines input)).
Proof. apply run_lines_records. Qed.

(** The output and the counters after a list of records. *)
Lemma fold_apply_record (patterns : list str) (records : list (list str)) :
  forall out kept dropped,
    fold_left (apply_record patterns) records (out, (kept, dropped)) =
    (out ++ concat (map record_block (filter (keeps patterns) records)),
     (kept + length (filter (keeps patterns) records),
      dropped + length (filter (fun r => negb (keeps patterns r)) records))).
Proof.
  induction records as [|r records IH]; intros out kept dropped.
  - cbn. rewrite app_nil_r, !Nat.add_0_r. reflexivity.
  - cbn [fold_left apply_record filter].
    destruct (keeps patterns r); cbn [negb]; rewrite IH;
      cbn [map concat length]; rewrite <- ?app_assoc;
      f_equal; f_equal; lia.
Qed.

(** ** The segmenter *)

Lemma segment_from_group (group rest : list str) :
  forallb (fun l => negb (is_separator l)) group = true ->
  forall current,
    segment_from current (group ++ rest) = segment_from (current ++ group) rest.
Proof.
  induction group as [|l group IH]; intros H current; cbn [app].
  - rewrite app_nil_r. reflexivity.
  - cbn [forallb] in H. apply andb_true_iff in H. destruct H as [Hl Hg].
    cbn [segment_from]. apply negb_true_iff in Hl. rewrite Hl.
    rewrite (IH Hg). rewrite <- app_assoc. reflexivity.
Qed.

Lemma segment_from_blank (seps rest : list str) :
  forallb is_separator seps = true ->
  segment_from [] (seps ++ rest) = segment_from [] rest.
Proof.
  induction seps as [|s seps IH]; intro H; cbn [app]; [reflexivity|].
  cbn [forallb] in H. apply andb_true_iff in H. destruct H as [Hs Hr].
  cbn [segment_from truthy]. rewrite Hs. exact (IH Hr).
Qed.

Lemma segment_from_flush (current seps rest : list str) :
  current <> [] -> seps <> [] -> forallb is_separator seps = true ->
  segment_from current (seps ++ rest) = current :: segment_from [] rest.
Proof.
  intros Hc Hne H. destruct seps as [|s seps]; [contradiction|].
  cbn [forallb] in H. apply andb_true_iff in H. destruct H as [Hs Hr].
  cbn [app segment_from]. rewrite Hs.
  destruct current; [contradiction|]. cbn [truthy].
  rewrite (segment_from_blank _ _ Hr). reflexivity.
Qed.

(** The records are the lines that are no separators, in input order. *)
Lemma concat_segment_from (lines : list str) :
  forall current,
    concat (segment_from current lines) =
    current ++ filter (fun l => negb (is_separator l)) lines.
Proof.
  induction lines as [|l lines IH]; intros current; cbn [segment_from filter].
  - destruct current; cbn; rewrite ?app_nil_r; reflexivity.
  - destruct (is_separator l); cbn [negb].
    + destruct current; cbn [truthy concat]; rewrite IH; reflexivity.
    + rewrite IH, <- app_assoc. reflexivity.
Qed.

(** Every record is non-empty and made of lines that are no separators. *)
Lemma segment_from_records (lines : list str) :
  forall current record,
    forallb (fun l => negb (is_separator l)) current = true ->
    In record (segment_from current lines) ->
    record <> [] /\
    forallb (fun l => negb (is_separator l)) record = true /\
    (forall l, In l record -> In l (current ++ lines)).
Proof.
  induction lines as [|l lines IH]; intros current record Hc Hin;
    cbn [segment_from] in Hin.
  - destruct current as [|c current]; cbn [truthy] in Hin; [contradiction|].
    destruct Hin as [<- | []]. rewrite app_nil_r.
    split; [discriminate|]. split; [exact Hc | auto].
  - destruct (is_separator l) eqn:El.
    + destruct current as [|c current]; cbn [truthy] in Hin.
      * destruct (IH [] record eq_refl Hin) as (H1 & H2 & H3).
        split; [exact H1|]. split; [exact H2|].
        intros x Hx. right. exact (H3 x Hx).
      * destruct Hin as [<- | Hin].
        -- split; [discriminate|]. split; [exact Hc|].
           intros x Hx. apply in_or_app. left. exact Hx.
        -- destruct (IH [] record eq_refl Hin) as (H1 & H2 & H3).
           split; [exact H1|]. split; [exact H2|].
           intros x Hx. apply in_or_app. right. right. exact (H3 x Hx).
    + assert (Hc' : forallb (fun l => negb (is_separator l)) (current ++ [l]) = true).
      { rewrite forallb_app, Hc. cbn. rewrite El. reflexivity. }
      destruct (IH _ record Hc' Hin) as (H1 & H2 & H3).
      split; [exact H1|]. split; [exact H2|].
      intros x Hx. specialize (H3 x Hx). rewrite <- app_assoc in H3. exact H3.
Qed.

(** ** Lines of a text file *)

Lemma split_lines_nonempty (s : str) : s <> [] -> split_lines s <> [].
Proof.
  destruct s as [|c s]; [contradiction|]. intros _.
  cbn [split_lines]. destruct (N.eqb c LF); [discriminate|].
  destruct (split_lines s); discriminate.
Qed.

(** Iterating over a file loses no character. *)
Lemma concat_split_lines (s : str) : concat (split_lines s) = s.
Proof.
  induction s as [|c s IH]; [reflexivity|].
  cbn [split_lines]. destruct (N.eqb c LF).
  - cbn [concat app]. rewrite IH. reflexivity.
  - destruct (split_lines s) as [|l ls] eqn:E.
    + cbn in IH. subst s. reflexivity.
    + cbn [concat] in *. rewrite <- IH. reflexivity.
Qed.

Lemma split_lines_shape (s : str) : file_lines (split_lines s).
Proof.
  induction s as [|c s IH]; [constructor|].
  cbn [split_lines]. destruct (N.eqb_spec c LF) as [-> | Hc].
  - apply (file_lines_cons [] _ (in_nil (a:=LF)) IH).
  - destruct (split_lines s) as [|l ls].
    + constructor; [discriminate|]. intros [H | []]. congruence.
    + inversion IH as [| u Hu Hlf | body rest Hlf Hrest]; subst.
      * constructor; [discriminate|]. intros [H | H]; [congruence | auto].
      * apply (file_lines_cons (c :: body) ls); [|exact Hrest].
        intros [H | H]; [congruence | auto].
Qed.

Lemma split_lines_terminated (line rest : str) :
  terminated line -> split_lines (line ++ rest) = line :: split_lines rest.
Proof.
  intros (body & -> & Hlf). induction body as [|c body IH].
  - reflexivity.
  - cbn [app split_lines].
    destruct (N.eqb_spec c LF) as [-> | Hc]; [elim Hlf; left; reflexivity|].
    rewrite IH; [reflexivity|]. intro H. apply Hlf. right. exact H.
Qed.

Lemma split_lines_concat (lines : list str) (rest : str) :
  Forall terminated lines ->
  split_lines (concat lines ++ rest) = lines ++ split_lines rest.
Proof.
  induction 1 as [|l lines Hl _ IH]; [reflexivity|].
  cbn [concat app]. rewrite <- app_assoc, (split_lines_terminated _ _ Hl), IH.
  reflexivity.
Qed.

(** The lines of a file are all terminated, or all but the last one. *)
Lemma file_lines_cases (lines : list str) :
  file_lines lines ->
  Forall terminated lines \/
  exists front u, lines = front ++ [u] /\ Forall terminated front /\
                  u <> [] /\ ~ In LF u.
Proof.
  induction 1 as [| u Hu Hlf | body rest Hlf _ IH].
  - left. constructor.
  - right. exists [], u. repeat split; auto.
  - assert (Hb : terminated (body ++ [LF])) by (exists body; auto).
    destruct IH as [IH | (front & u & -> & Hf & Hu & Hn)].
    + left. constructor; assumption.
    + right. exists ((body ++ [LF]) :: front), u.
      repeat split; auto.
Qed.

Lemma translate_newlines_no_cr (s : str) : ~ In CR s -> translate_newlines s = s.
Proof.
  induction s as [|c s IH]; intro H; [reflexivity|].
  cbn [translate_newlines].
  destruct (N.eqb_spec c CR) as [-> | Hc]; [elim H; left; reflexivity|].
  rewrite IH; [reflexivity|]. intro Hin. apply H. right. exact Hin.
Qed.

(** After the translation of the line endings no CR is left. *)
Lemma translate_newlines_cr_free (s : str) : ~ In CR (translate_newlines s).
Proof.
  assert (H : forall n s, length s <= n -> ~ In CR (translate_newlines s)).
  { clear s. induction n as [|n IH]; intros s Hlen.
    - destruct s; [intros [] | cbn in Hlen; lia].
    - destruct s as [|c s]; [intros []|].
      cbn [length] in Hlen. cbn [translate_newlines].
      destruct (N.eqb_spec c CR) as [-> | Hc].
      + destruct s as [|c' s].
        * intros [H | []]. discriminate.
        * cbn [length] in Hlen.
          destruct (N.eqb c' LF); intros [H | H]; try discriminate;
            revert H; apply IH; cbn [length]; lia.
      + intros [H | H]; [congruence|].
        revert H. apply IH. lia. }
  exact (H (length s) s (le_n _)).
Qed.

(** Text without CR that was written to a file is read back unchanged. *)
Lemma read_back (pf : platform) (text : str) :
  ~ In CR text -> translate_newlines (encode_newlines pf text) = text.
Proof.
  induction text as [|c text IH]; intro H; [reflexivity|].
  assert (Hc : c <> CR) by (intros ->; apply H; left; reflexivity).
  assert (Ht : ~ In CR text) by (intro Hin; apply H; right; exact Hin).
  specialize (IH Ht). cbn [encode_newlines flat_map].
  fold (encode_newlines pf text).
  destruct (N.eqb_spec c LF) as [-> | Hlf].
  - destruct pf; cbn [linesep app translate_newlines];
      cbn [N.eqb CR LF Pos.eqb]; rewrite IH; reflexivity.
  - cbn [app translate_newlines].
    destruct (N.eqb_spec c CR) as [-> | _]; [contradiction|].
    rewrite IH. reflexivity.
Qed.

Lemma iter_lines_shape (input : str) : file_lines (iter_lines input).
Proof. apply split_lines_shape. Qed.

Lemma iter_lines_cr_free (input : str) (line : str) :
  In line (iter_lines input) -> ~ In CR line.
Proof.
  intros Hl Hc. apply (@translate_newlines_cr_free input).
  rewrite <- (concat_split_lines (translate_newlines input)).
  apply in_concat. exists line. split; assumption.
Qed.

(** ** Separators *)

(** The test of line 104 holds exactly on the lines made of whitespace. *)
Lemma is_separator_spaces (line : str) :
  is_separator line = forallb isspace line.
Proof.
  apply eq_true_iff_eq. unfold is_separator, strip.
  rewrite str_eqb_nil. apply strip_with_nil.
Qed.

Lemma is_separator_snoc_lf (line : str) :
  is_separator (line ++ [LF]) = is_separator line.
Proof.
  rewrite !is_separator_spaces, forallb_app. cbn. apply andb_true_r.
Qed.

Lemma startswith_snoc (c : char) (prefix : str) :
  ~ In c prefix ->
  forall text, startswith (text ++ [c]) prefix = startswith text prefix.
Proof.
  induction prefix as [|m prefix IH]; intros Hc text; [reflexivity|].
  destruct text as [|t text]; cbn [app startswith].
  - destruct (N.eqb_spec c m) as [-> | Hm]; [|reflexivity].
    elim Hc. left. reflexivity.
  - rewrite IH; [reflexivity|]. intro H. apply Hc. right. exact H.
Qed.

Lemma marker_no_lf : ~ In LF TEXT_MARKER.
Proof.
  intro H. vm_compute in H.
  repeat (destruct H as [H | H]; [discriminate|]). exact H.
Qed.

Lemma marker_length : length TEXT_MARKER = 9.
Proof. reflexivity. Qed.

(** A line terminator added to the last line of a record does not change
    the extracted text. *)
Lemma extract_snoc_lf (record : list str) (line : str) :
  extract_text_from_record (record ++ [line ++ [LF]]) =
  extract_text_from_record (record ++ [line]).
Proof.
  induction record as [|l record IH]; cbn [app extract_text_from_record].
  - rewrite (startswith_snoc _ _ marker_no_lf).
    destruct (startswith line TEXT_MARKER) eqn:E; [|reflexivity].
    apply startswith_prefix in E. destruct E as (rest & ->).
    unfold slice_from, rstrip. rewrite <- app_assoc.
    rewrite <- marker_length, !skipn_app, !skipn_all, Nat.sub_diag.
    cbn [skipn app]. rewrite rstrip_with_app; reflexivity.
  - rewrite IH. reflexivity.
Qed.

Lemma keeps_snoc_lf (patterns : list str) (record : list str) (line : str) :
  keeps patterns (record ++ [line ++ [LF]]) = keeps patterns (record ++ [line]).
Proof. unfold keeps. rewrite extract_snoc_lf. reflexivity. Qed.

(** ** Segmentation of grouped input *)

Lemma segment_from_end (group : list str) :
  forallb (fun l => negb (is_separator l)) group = true ->
  segment_from [] group = if truthy group then [group] else [].
Proof.
  intro H. rewrite <- (app_nil_r group) at 1.
  rewrite (segment_from_group _ [] H). reflexivity.
Qed.

Lemma segment_groups (groups : list (list str * list str)) (tail : list str) :
  Forall (fun gs => fst gs <> [] /\
                    forallb (fun l => negb (is_separator l)) (fst gs) = true /\
                    snd gs <> [] /\
                    forallb is_separator (snd gs) = true) groups ->
  forallb (fun l => negb (is_separator l)) tail = true ->
  segment_from [] (flat_map (fun gs => fst gs ++ snd gs) groups ++ tail) =
  map fst groups ++ (if truthy tail then [tail] else []).
Proof.
  intros Hg Ht. induction Hg as [|[g s] groups (Hg1 & Hg2 & Hs1 & Hs2) _ IH].
  - apply segment_from_end. exact Ht.
  - cbn [flat_map map fst snd app] in *.
    rewrite <- !app_assoc, (segment_from_group _ _ Hg2).
    cbn [app]. rewrite (segment_from_flush _ _ _ Hg1 Hs1 Hs2), IH. reflexivity.
Qed.

Lemma segment_from_snoc_sep (u : str) (lines : list str) :
  is_separator u = true ->
  forall current,
    segment_from current (lines ++ [u]) = segment_from current lines.
Proof.
  intro Hu. induction lines as [|l lines IH]; intro current;
    cbn [app segment_from].
  - rewrite Hu. destruct current; reflexivity.
  - rewrite !IH. reflexivity.
Qed.

Lemma segment_from_snoc_content (u : str) (lines : list str) :
  is_separator u = false ->
  forall current,
  exists front buffer,
    segment_from current (lines ++ [u]) = front ++ [buffer ++ [u]] /\
    segment_from current lines =
    front ++ (if truthy buffer then [buffer] else []).
Proof.
  intro Hu. induction lines as [|l lines IH]; intro current;
    cbn [app segment_from].
  - rewrite Hu. exists [], current.
    destruct current; split; reflexivity.
  - destruct (is_separator l).
    + destruct current as [|c current]; cbn [truthy].
      * apply IH.
      * destruct (IH []) as (front & buffer & H1 & H2).
        exists ((c :: current) :: front), buffer.
        rewrite H1, H2. split; reflexivity.
    + apply IH.
Qed.

(** ** A second pass over the output of a first pass *)

Lemma terminated_lf : terminated [LF].
Proof. exists []. split; [reflexivity | intros []]. Qed.

Lemma terminated_snoc_lf (u : str) : ~ In LF u -> terminated (u ++ [LF]).
Proof. intro H. exists u. split; [reflexivity | exact H]. Qed.

(** Reading back the blocks of records whose lines are all terminated,
    followed by the lines of one more group, gives back these records and
    this group. *)
Lemma segment_blocks (records : list (list str)) (tail : list str) :
  Forall (fun r => r <> [] /\
                   forallb (fun l => negb (is_separator l)) r = true /\
                   Forall terminated r) records ->
  forallb (fun l => negb (is_separator l)) tail = true ->
  Forall terminated tail ->
  segment (split_lines (concat (map record_block records) ++ concat tail)) =
  records ++ (if truthy tail then [tail] else []).
Proof.
  intros Hr Ht Htt. unfold segment.
  induction Hr as [|r records (Hne & Hns & Hterm) _ IH].
  - cbn [map concat app].
    rewrite <- (app_nil_r (concat tail)), (split_lines_concat _ _ Htt).
    cbn [split_lines]. rewrite app_nil_r. apply segment_from_end. exact Ht.
  - cbn [map concat]. unfold record_block at 1.
    rewrite <- !app_assoc, (split_lines_concat _ _ Hterm).
    rewrite (segment_from_group _ _ Hns). cbn [app split_lines].
    rewrite N.eqb_refl. cbn [segment_from].
    change (is_separator [LF]) with true. cbv iota.
    destruct r as [|l r]; [contradiction|]. cbn [truthy].
    rewrite IH. reflexivity.
Qed.

Lemma run_records_all_kept (patterns : list str) (records : list (list str)) :
  (forall r, In r records -> keeps patterns r = true) ->
  snd (run_records patterns records) = (length records, 0).
Proof.
  intro H. unfold run_records. rewrite fold_apply_record. cbn [snd].
  assert (Hk : filter (keeps patterns) records = records).
  { induction records as [|r records IH]; [reflexivity|].
    cbn [filter]. rewrite (H r (or_introl eq_refl)), IH; [reflexivity|].
    intros x Hx. apply H. right. exact Hx. }
  assert (Hd : filter (fun r => negb (keeps patterns r)) records = []).
  { induction records as [|r records IH]; [reflexivity|].
    cbn [filter]. rewrite (H r (or_introl eq_refl)). cbn [negb].
    apply IH.
    - intros x Hx. apply H. right. exact Hx.
    - cbn [filter] in Hk. rewrite (H r (or_introl eq_refl)) in Hk.
      injection Hk as Hk. exact Hk. }
  rewrite Hk, Hd. reflexivity.
Qed.

(** The records of input whose lines are all terminated. *)
Lemma segment_terminated (lines : list str) (record : list str) :
  Forall terminated lines -> In record (segment lines) ->
  record <> [] /\
  forallb (fun l => negb (is_separator l)) record = true /\
  Forall terminated record.
Proof.
  intros Hl Hin.
  destruct (segment_from_records lines [] record eq_refl Hin) as (H1 & H2 & H3).
  split; [exact H1|]. split; [exact H2|].
  apply Forall_forall. intros l Hlr.
  rewrite Forall_forall in Hl. apply Hl. exact (H3 l Hlr).
Qed.

(** The output of a pass, seen as the blocks of kept records with
    terminated lines, followed by the lines of at most one more kept
    record, the one whose last line had no terminator in the input. *)
Lemma first_pass_shape (patterns : list str) (lines : list str) :
  file_lines lines ->
  exists records tail,
    fst (run_records patterns (segment lines)) =
      concat (map record_block records) ++ concat tail /\
    fst (snd (run_records patterns (segment lines))) =
      length (records ++ (if truthy tail then [tail] else [])) /\
    Forall (fun r => r <> [] /\
                     forallb (fun l => negb (is_separator l)) r = true /\
                     Forall terminated r) records /\
    forallb (fun l => negb (is_separator l)) tail = true /\
    Forall terminated tail /\
    (forall r, In r (records ++ (if truthy tail then [tail] else [])) ->
               keeps patterns r = true).
Proof.
  intro Hshape.
  assert (Hall : forall ls, Forall terminated ls ->
    Forall (fun r => r <> [] /\
                     forallb (fun l => negb (is_separator l)) r = true /\
                     Forall terminated r)
           (filter (keeps patterns) (segment ls)) /\
    (forall r, In r (filter (keeps patterns) (segment ls) ++ []) ->
               keeps patterns r = true)).
  { intros ls Hls. split.
    - apply Forall_forall. intros r Hr. apply filter_In in Hr.
      apply (segment_terminated ls r Hls). apply Hr.
    - intros r Hr. rewrite app_nil_r in Hr. apply filter_In in Hr. apply Hr. }
  unfold run_records. rewrite fold_apply_record. cbn [fst snd app].
  destruct (file_lines_cases lines Hshape)
    as [Hterm | (front & u & -> & Hfront & Hu & Hlf)].
  - exists (filter (keeps patterns) (segment lines)), [].
    destruct (Hall lines Hterm) as [H1 H2].
    cbn [concat truthy]. rewrite !app_nil_r.
    repeat split; auto. rewrite app_nil_r in H2. exact H2.
  - unfold segment. destruct (is_separator u) eqn:Eu.
    + rewrite (segment_from_snoc_sep u front Eu).
      exists (filter (keeps patterns) (segment front)), [].
      destruct (Hall front Hfront) as [H1 H2].
      cbn [concat truthy]. rewrite !app_nil_r.
      repeat split; auto. rewrite app_nil_r in H2. exact H2.
    + destruct (segment_from_snoc_content u front Eu [])
        as (done & buffer & -> & Hseg).
      assert (Hdone : forall r, In r done -> In r (segment front)).
      { intros r Hr. unfold segment. rewrite Hseg.
        apply in_or_app. left. exact Hr. }
      assert (Hbuf : forallb (fun l => negb (is_separator l)) buffer = true /\
                     Forall terminated buffer).
      { destruct buffer as [|b buffer]; [split; [reflexivity | constructor]|].
        assert (Hin : In (b :: buffer) (segment front)).
        { unfold segment. rewrite Hseg. apply in_or_app. right.
          left. reflexivity. }
        destruct (segment_terminated front _ Hfront Hin) as (_ & H2 & H3).
        split; assumption. }
      destruct Hbuf as [Hbuf1 Hbuf2].
      assert (Hkept : Forall (fun r => r <> [] /\
                     forallb (fun l => negb (is_separator l)) r = true /\
                     Forall terminated r) (filter (keeps patterns) done)).
      { apply Forall_forall. intros r Hr. apply filter_In in Hr.
        apply (segment_terminated front r Hfront). apply Hdone. apply Hr. }
      rewrite filter_app. cbn [filter].
      destruct (keeps patterns (buffer ++ [u])) eqn:Ek.
      * exists (filter (keeps patterns) done), (buffer ++ [u ++ [LF]]).
        repeat match goal with
               | |- context [@truthy ?A ?x] =>
                   let H := fresh in
                   assert (H : @truthy A x = true)
                     by (destruct buffer; reflexivity);
                   rewrite H; clear H
               end.
        split; [|split; [|split; [|split; [|split]]]].
        -- rewrite map_app, concat_app. cbn [map concat].
           unfold record_block at 2. rewrite !concat_app. cbn [concat].
           rewrite !app_nil_r, <- !app_assoc. reflexivity.
        -- rewrite !length_app. reflexivity.
        -- exact Hkept.
        -- rewrite forallb_app, Hbuf1. cbn [forallb].
           rewrite is_separator_snoc_lf, Eu. reflexivity.
        -- apply Forall_app. split; [exact Hbuf2|].
           constructor; [|constructor]. apply terminated_snoc_lf. exact Hlf.
        -- intros r Hr. apply in_app_or in Hr. destruct Hr as [Hr | [<- | []]].
           ++ apply filter_In in Hr. apply Hr.
           ++ rewrite keeps_snoc_lf. exact Ek.
      * exists (filter (keeps patterns) done), [].
        cbn [concat truthy]. rewrite !app_nil_r.
        repeat split; auto.
        intros r Hr. apply filter_In in Hr. apply Hr.
Qed.

(** No CR reaches the output. *)
Lemma output_cr_free (patterns : list str) (lines : list str) :
  (forall l, In l lines -> ~ In CR l) ->
  ~ In CR (fst (run_records patterns (segment lines))).
Proof.
  intros Hl Hc. unfold run_records in Hc.
  rewrite fold_apply_record in Hc. cbn [fst app] in Hc.
  apply in_concat in Hc. destruct Hc as (block & Hb & Hc).
  apply in_map_iff in Hb. destruct Hb as (r & <- & Hr).
  apply filter_In in Hr. destruct Hr as [Hr _].
  unfold record_block in Hc. apply in_app_or in Hc.
  destruct Hc as [Hc | [Hc | []]]; [|discriminate].
  apply in_concat in Hc. destruct Hc as (l & Hlr & Hc).
  destruct (segment_from_records lines [] r eq_refl Hr) as (_ & _ & H3).
  exact (Hl l (H3 l Hlr) Hc).
Qed.

Lemma filter_partition_length (A : Type) (f : A -> bool) (l : list A) :
  length (filter f l) + length (filter (fun x => negb (f x)) l) = length l.
Proof.
  induction l as [|x l IH]; [reflexivity|].
  cbn [filter]. destruct (f x); cbn [negb length]; lia.
Qed.

Lemma truthy_nonempty (A : Type) (l : list A) : truthy l = true <-> l <> [].
Proof.
  destruct l; cbn; split; intro H; try reflexivity; try discriminate.
  contradiction.
Qed.

(** * The properties *)

(** C1 (as amended): the loop takes a line for a record separator exactly
    when every character of the line is whitespace in the sense of
    [str.strip()]; such a line closes the current record, if there is one,
    and any other line is appended to the current record. *)
Theorem separator_is_whitespace_line
  (patterns : list str) (st : state) (line : str) :
  is_separator line = forallb isspace line /\
  loop_body patterns st line =
  if forallb isspace line then
    if truthy (current_record st) then
      {| outfile := outfile (process_record patterns st);
         total := total (process_record patterns st);
         removed := removed (process_record patterns st);
         current_record := [] |}
    else st
  else
    {| outfile := outfile st; total := total st; removed := removed st;
       current_record := current_record st ++ [line] |}.
Proof.
  rewrite <- is_separator_spaces. split; reflexivity.
Qed.

(** C1, counterexample: a line of two spaces and a line feed is not empty
    once CR and LF are stripped, yet the loop takes it for a separator: the
    pending record is decided on and the line is not appended. *)
Lemma spaces_line_is_separator :
  let line := lit "  " ++ [LF] in
  let st := {| outfile := []; total := 0; removed := 0;
               current_record := [lit "1 word" ++ [LF]] |} in
  terminator_blank line = false /\
  is_separator line = true /\
  loop_body DEFAULT_PATTERNS st line =
  {| outfile := lit "1 word" ++ [LF; LF]; total := 1; removed := 0;
     current_record := [] |}.
Proof. vm_compute. repeat split. Qed.

(** C2: the two counters returned by a run add up to the number of records
    segmented from the input; the first one counts the records that are
    kept, the second one the records that are dropped. *)
Theorem conservation (input : str) (patterns : list str) :
  let records := segment (iter_lines input) in
  let counters := snd (filter_conllu_stream input patterns) in
  fst counters + snd counters = length records /\
  fst counters = length (filter (keeps patterns) records) /\
  snd counters = length (filter (fun r => negb (keeps patterns r)) records).
Proof.
  cbv zeta. rewrite filter_conllu_stream_records. unfold run_records.
  rewrite fold_apply_record. cbn [fst snd Nat.add].
  split; [apply filter_partition_length | split; reflexivity].
Qed.

(** C3: [matches_boilerplate] is true exactly when the text starts with
    one of the patterns, compared code point by code point; it is false on
    the empty pattern list and when the text is shorter than every
    pattern. *)
Theorem prefix_semantics (s : str) (patterns : list str) :
  (matches_boilerplate s patterns = true <->
   exists p, In p patterns /\ slice_to (length p) s = p) /\
  matches_boilerplate s [] = false /\
  ((forall p, In p patterns -> length s < length p) ->
   matches_boilerplate s patterns = false).
Proof.
  split; [|split].
  - rewrite matches_boilerplate_exists. split.
    + intros (p & Hin & Hp). exists p. split; [exact Hin|].
      apply startswith_slice. exact Hp.
    + intros (p & Hin & Hp). exists p. split; [exact Hin|].
      apply startswith_slice. exact Hp.
  - reflexivity.
  - intro Hshort.
    destruct (matches_boilerplate s patterns) eqn:E; [|reflexivity].
    apply matches_boilerplate_exists in E. destruct E as (p & Hin & Hp).
    rewrite (startswith_short s p (Hshort p Hin)) in Hp. discriminate.
Qed.

(** C3, at a concrete input: a text shorter than every default pattern
    does not match, although it is the beginning of one of them. *)
Lemma prefix_semantics_witness :
  matches_boilerplate (lit "DOI") DEFAULT_PATTERNS = false.
Proof.
  apply (proj2 (proj2 (prefix_semantics (lit "DOI") DEFAULT_PATTERNS))).
  intros p Hp. vm_compute in Hp.
  repeat (destruct Hp as [<- | Hp]; [vm_compute; lia|]). destruct Hp.
Defined.

(** C4 (as amended): the text written by a run is, for the kept records
    in input order, the lines of the record as the text-mode reader yields
    them, concatenated unchanged, followed by one line feed; dropped
    records contribute nothing.  The records are the lines of the input
    that are no separators, in input order; the lines are the text of the
    input with its CR LF and CR line endings translated to LF, cut after
    each line feed, so that they are the lines of the input itself,
    terminators included, when the input holds no CR. *)
Theorem kept_records_written (input : str) (patterns : list str) :
  let lines := iter_lines input in
  fst (filter_conllu_stream input patterns) =
    concat (map (fun record => concat record ++ [LF])
                (filter (keeps patterns) (segment lines))) /\
  concat (segment lines) = filter is_content lines /\
  concat lines = translate_newlines input /\
  (~ In CR input -> concat lines = input).
Proof.
  cbv zeta. split; [|split; [|split]].
  - rewrite filter_conllu_stream_records. unfold run_records.
    rewrite fold_apply_record. reflexivity.
  - apply (concat_segment_from (iter_lines input) []).
  - apply concat_split_lines.
  - intro H. unfold iter_lines. rewrite (translate_newlines_no_cr _ H).
    apply concat_split_lines.
Qed.

(** C4, counterexample: the only record of this input is kept, its line
    ends with CR LF in the input, and the text written, taken to the file
    as it is where the line separator is LF, holds that line with LF
    alone: no CR is left in it. *)
Lemma crlf_terminator_not_preserved :
  let input := lit "1 word" ++ [CR; LF] in
  let run := filter_conllu_stream input DEFAULT_PATTERNS in
  snd run = (1, 0) /\
  encode_newlines Posix (fst run) = lit "1 word" ++ [LF; LF] /\
  encode_newlines Posix (fst run) <> input ++ [LF].
Proof. vm_compute. repeat split. discriminate. Qed.

(** C5: the field of a record comes from its first line that starts with
    the 9 characters of the marker: it is what follows the marker on that
    line, up to the trailing run of CR and LF characters, and nothing else
    is removed; a record without such a line has no field. *)
Theorem text_field_of_first_marker_line (record : list str) :
  length TEXT_MARKER = 9 /\
  (forall before line after,
     record = before ++ line :: after ->
     (forall l, In l before -> startswith l TEXT_MARKER = false) ->
     startswith line TEXT_MARKER = true ->
     exists value trail,
       line = TEXT_MARKER ++ value ++ trail /\
       (forall c, In c trail -> c = CR \/ c = LF) /\
       (forall v c, value = v ++ [c] -> c <> CR /\ c <> LF) /\
       extract_text_from_record record = Some value) /\
  ((forall l, In l record -> startswith l TEXT_MARKER = false) ->
   extract_text_from_record record = None).
Proof.
  split; [reflexivity|]. split.
  - intros before line after -> Hbefore Hline.
    rewrite (extract_first before after line Hbefore Hline).
    apply startswith_prefix in Hline. destruct Hline as (rest & ->).
    unfold slice_from, rstrip.
    rewrite <- marker_length, skipn_app, skipn_all, Nat.sub_diag.
    cbn [skipn app].
    destruct (rstrip_with_split (in_chars [CR; LF]) rest) as (trail & Hs & Ht).
    exists (rstrip_with (in_chars [CR; LF]) rest), trail.
    split; [rewrite <- Hs; reflexivity|]. split; [|split; [|reflexivity]].
    + intros c Hc. apply in_chars_crlf.
      rewrite forallb_forall in Ht. exact (Ht c Hc).
    + intros v c Hv. apply rstrip_with_last in Hv.
      split; intros ->; discriminate.
  - apply extract_none.
Qed.

(** C5, at a concrete record: no line starts with the marker (the second
    line lacks the space after the equals sign), so there is no field. *)
Lemma text_field_of_first_marker_line_witness :
  extract_text_from_record
    [lit "# sent_id = 1" ++ [LF]; lit "# text =Hello" ++ [LF]] = None.
Proof.
  apply (proj2 (proj2 (text_field_of_first_marker_line
           [lit "# sent_id = 1" ++ [LF]; lit "# text =Hello" ++ [LF]]))).
  intros l [<- | [<- | []]]; reflexivity.
Defined.

(** C6: a record of the input none of whose lines starts with the marker
    is kept whatever the patterns are: at its turn the run writes its block
    and adds one to the first counter. *)
Theorem absent_field_record_kept
  (patterns : list str) (lines : list str)
  (before : list (list str)) (record : list str) (after : list (list str)) :
  segment lines = before ++ record :: after ->
  (forall l, In l record -> startswith l TEXT_MARKER = false) ->
  keeps patterns record = true /\
  result_of (run_lines patterns lines) =
  fold_left (apply_record patterns) after
    (fst (run_records patterns before) ++ concat record ++ [LF],
     (fst (snd (run_records patterns before)) + 1,
      snd (snd (run_records patterns before)))).
Proof.
  intros Hseg Hmark.
  assert (Hk : keeps patterns record = true).
  { unfold keeps. rewrite (proj2 (extract_none record) Hmark). reflexivity. }
  split; [exact Hk|].
  rewrite run_lines_records, Hseg. unfold run_records.
  rewrite fold_left_app. cbn [fold_left].
  destruct (fold_left (apply_record patterns) before ([], (0, 0)))
    as [out [kept dropped]].
  cbn [apply_record fst snd]. rewrite Hk. reflexivity.
Qed.

(** C6, at a concrete input: a record without a text line between two
    records with one, under the default patterns. *)
Lemma absent_field_record_kept_witness :
  result_of (run_lines DEFAULT_PATTERNS
    [lit "# text = Copyright 2020" ++ [LF]; [LF];
     lit "1 word" ++ [LF]; [LF];
     lit "# text = DOI: 10.1234/x" ++ [LF]]) =
  (lit "1 word" ++ [LF; LF], (1, 2)).
Proof.
  refine (proj2 (absent_field_record_kept DEFAULT_PATTERNS
    [lit "# text = Copyright 2020" ++ [LF]; [LF];
     lit "1 word" ++ [LF]; [LF];
     lit "# text = DOI: 10.1234/x" ++ [LF]]
    [[lit "# text = Copyright 2020" ++ [LF]]]
    [lit "1 word" ++ [LF]]
    [[lit "# text = DOI: 10.1234/x" ++ [LF]]] _ _)).
  - reflexivity.
  - intros l [<- | []]. reflexivity.
Defined.

(** C7 (as amended): on input made of groups of lines that are not
    whitespace-only, each followed by one or more whitespace-only lines,
    with possibly whitespace-only lines first and a last group that no
    such line follows, the records are exactly the groups, in order, none
    split, merged or empty, and the run decides on each of them, the last
    one included.  Whitespace-only is the test of line 104. *)
Theorem segmentation_of_groups
  (patterns : list str) (lead : list str)
  (groups : list (list str * list str)) (tail : list str) :
  forallb is_separator lead = true ->
  forallb well_grouped groups = true ->
  forallb is_content tail = true ->
  segment (grouped_input lead groups tail) =
    map fst groups ++ (if truthy tail then [tail] else []) /\
  result_of (run_lines patterns (grouped_input lead groups tail)) =
    run_records patterns
      (map fst groups ++ (if truthy tail then [tail] else [])).
Proof.
  intros Hlead Hgroups Htail.
  assert (Hseg : segment (grouped_input lead groups tail) =
                 map fst groups ++ (if truthy tail then [tail] else [])).
  { unfold segment, grouped_input.
    rewrite (segment_from_blank lead _ Hlead).
    apply segment_groups; [|exact Htail].
    apply Forall_forall. intros gs Hin.
    rewrite forallb_forall in Hgroups. specialize (Hgroups gs Hin).
    unfold well_grouped in Hgroups.
    rewrite !andb_true_iff, !truthy_nonempty in Hgroups.
    tauto. }
  split; [exact Hseg|].
  rewrite run_lines_records, Hseg. reflexivity.
Qed.

(** C7, at a concrete input: a blank line, two lines, two blank lines, one
    line, a line of spaces, and a last line without terminator. *)
Lemma segmentation_of_groups_witness :
  segment
    [[LF];
     lit "# text = one" ++ [LF]; lit "1 one" ++ [LF]; [LF]; [LF];
     lit "# text = two" ++ [LF]; lit " " ++ [LF];
     lit "# text = three"] =
  [[lit "# text = one" ++ [LF]; lit "1 one" ++ [LF]];
   [lit "# text = two" ++ [LF]];
   [lit "# text = three"]].
Proof.
  refine (proj1 (segmentation_of_groups DEFAULT_PATTERNS
    [[LF]]
    [([lit "# text = one" ++ [LF]; lit "1 one" ++ [LF]], [[LF]; [LF]]);
     ([lit "# text = two" ++ [LF]], [lit " " ++ [LF]])]
    [lit "# text = three"] _ _ _)); reflexivity.
Defined.

(** C7, counterexample: three lines none of which is empty once its CR
    and LF are stripped, so one group of non-blank lines in the sense of
    the specification; the loop splits it at the line of spaces, which
    ends up in no record. *)
Lemma spaces_line_splits_group :
  let group := [lit "1 a" ++ [LF]; lit "  " ++ [LF]; lit "2 b" ++ [LF]] in
  forallb (fun line => negb (terminator_blank line)) group = true /\
  segment group = [[lit "1 a" ++ [LF]]; [lit "2 b" ++ [LF]]] /\
  segment group <> [group].
Proof. vm_compute. repeat split. discriminate. Qed.

(** C8: a second run, with the same patterns, over the output file of a
    first run removes nothing and keeps as many records as the first run
    kept, on either platform. *)
Theorem second_pass_removes_nothing
  (pf : platform) (input : str) (patterns : list str) :
  let first := filter_conllu_stream input patterns in
  let second :=
    filter_conllu_stream (encode_newlines pf (fst first)) patterns in
  snd (snd second) = 0 /\ fst (snd second) = fst (snd first).
Proof.
  cbv zeta.
  rewrite (filter_conllu_stream_records input).
  set (first := run_records patterns (segment (iter_lines input))).
  assert (Hcr : ~ In CR (fst first)).
  { apply output_cr_free. apply iter_lines_cr_free. }
  destruct (first_pass_shape patterns (iter_lines input) (iter_lines_shape input))
    as (records & tail & Hout & Hkept & Hrec & Htail & Hterm & Hkeeps).
  fold first in Hout, Hkept.
  assert (Hsecond :
    snd (filter_conllu_stream (encode_newlines pf (fst first)) patterns) =
    (fst (snd first), 0)).
  { rewrite filter_conllu_stream_records. unfold iter_lines.
    rewrite (read_back pf _ Hcr), Hout.
    rewrite (segment_blocks records tail Hrec Htail Hterm).
    rewrite Hkept. apply run_records_all_kept. exact Hkeeps. }
  split.
  - exact (f_equal snd Hsecond).
  - exact (f_equal fst Hsecond).
Qed.

(** C9: when the empty string is among the patterns, every text matches,
    so that every record that has a text field, be it empty, is counted as
    removed and not written. *)
Theorem empty_pattern_matches_everything (s : str) (patterns : list str) :
  In [] patterns ->
  matches_boilerplate s patterns = true /\
  (forall st,
     extract_text_from_record (current_record st) <> None ->
     process_record patterns st =
     {| outfile := outfile st; total := total st;
        removed := removed st + 1; current_record := current_record st |}).
Proof.
  intro Hin.
  assert (Hall : forall text, matches_boilerplate text patterns = true).
  { intro text. apply matches_boilerplate_exists. exists [].
    split; [exact Hin | apply startswith_nil]. }
  split; [apply Hall|].
  intros st Hfield. unfold process_record.
  destruct (extract_text_from_record (current_record st)) as [text|];
    [|contradiction].
  rewrite Hall. reflexivity.
Qed.

(** C9, at a concrete input: a record whose text field is empty. *)
Lemma empty_pattern_matches_everything_witness :
  In [] [lit "DOI:"; []] /\
  matches_boilerplate (lit "a sentence") [lit "DOI:"; []] = true /\
  process_record [lit "DOI:"; []]
    {| outfile := []; total := 0; removed := 0;
       current_record := [lit "# text = " ++ [LF]; lit "1 _" ++ [LF]] |} =
  {| outfile := []; total := 0; removed := 1;
     current_record := [lit "# text = " ++ [LF]; lit "1 _" ++ [LF]] |}.
Proof.
  assert (Hin : In [] [lit "DOI:"; []]) by (right; left; reflexivity).
  split; [exact Hin|].
  destruct (empty_pattern_matches_everything (lit "a sentence")
              [lit "DOI:"; []] Hin) as [Hm Hp].
  split; [exact Hm|].
  apply (Hp {| outfile := []; total := 0; removed := 0;
               current_record := [lit "# text = " ++ [LF]; lit "1 _" ++ [LF]] |}).
  discriminate.
Defined.

(** C10: on input without content lines, be it empty or made of
    separator lines only, the run writes nothing and returns [(0, 0)]. *)
Theorem blank_input_yields_nothing (input : str) (patterns : list str) :
  forallb is_separator (iter_lines input) = true ->
  filter_conllu_stream input patterns = ([], (0, 0)).
Proof.
  intro H. rewrite filter_conllu_stream_records. unfold segment.
  rewrite <- (app_nil_r (iter_lines input)).
  rewrite (segment_from_blank _ [] H). reflexivity.
Qed.

(** C10, at concrete inputs: blank lines with the three line endings, and
    the empty file. *)
Lemma blank_input_yields_nothing_witness :
  filter_conllu_stream [LF; CR; LF; CR; LF] DEFAULT_PATTERNS = ([], (0, 0)) /\
  filter_conllu_stream [] DEFAULT_PATTERNS = ([], (0, 0)).
Proof.
  split; apply blank_input_yields_nothing; reflexivity.
Defined.

(** ** The scenarios of the specification *)

(** Three records, the second of which starts with a default pattern. *)
Example scenario_doi :
  filter_conllu_stream
    (lit "# text = First sentence." ++ [LF] ++ lit "1 First" ++ [LF; LF] ++
     lit "# text = DOI: 10.1234/x" ++ [LF] ++ lit "1 DOI" ++ [LF; LF] ++
     lit "# text = Third sentence." ++ [LF] ++ lit "1 Third" ++ [LF; LF])
    DEFAULT_PATTERNS =
  (lit "# text = First sentence." ++ [LF] ++ lit "1 First" ++ [LF; LF] ++
   lit "# text = Third sentence." ++ [LF] ++ lit "1 Third" ++ [LF; LF],
   (2, 1)).
Proof. vm_compute. reflexivity. Qed.

(** The input ends without a blank line: the last record is decided on. *)
Example scenario_no_final_blank_line :
  filter_conllu_stream
    (lit "# text = Copyright 2020" ++ [LF; LF] ++ lit "# text = Last.")
    DEFAULT_PATTERNS =
  (lit "# text = Last." ++ [LF], (1, 1)).
Proof. vm_compute. reflexivity. Qed.

(** The field of a record with two marker lines is taken from the first
    one; the spaces around it stay, the CR and LF after it go. *)
Example scenario_first_marker :
  extract_text_from_record
    [lit "# sent_id = 1" ++ [LF];
     lit "# text =  Hello world " ++ [CR; LF];
     lit "# text = DOI: 10.1234/x" ++ [LF]] =
  Some (lit " Hello world ").
Proof. reflexivity. Qed.

(** Two marker lines in one record: only the first one is matched. *)
Example scenario_two_markers :
  filter_conllu_stream
    (lit "# text = Fine." ++ [LF] ++ lit "# text = DOI: x" ++ [LF])
    DEFAULT_PATTERNS =
  (lit "# text = Fine." ++ [LF] ++ lit "# text = DOI: x" ++ [LF; LF], (1, 0)).
Proof. vm_compute. reflexivity. Qed.

(** * Further properties *)

(** ** Stripping *)

Lemma lstrip_with_suffix (p : char -> bool) (s : str) :
  exists lead, s = lead ++ lstrip_with p s /\ forallb p lead = true.
Proof.
  induction s as [|c s (lead & Hs & Hl)]; cbn [lstrip_with].
  - exists []. split; reflexivity.
  - destruct (p c) eqn:Ec.
    + exists (c :: lead). cbn [app forallb]. rewrite Ec, Hl, <- Hs.
      split; reflexivity.
    + exists []. split; reflexivity.
Qed.

Lemma lstrip_with_head (p : char -> bool) (s : str) (c : char) (r : str) :
  lstrip_with p s = c :: r -> p c = false.
Proof.
  induction s as [|a s IH]; cbn [lstrip_with]; [discriminate|].
  destruct (p a) eqn:Ea; [exact IH|].
  intro H. injection H as <- _. exact Ea.
Qed.

Lemma rstrip_with_fixed (p : char -> bool) (w : str) (d : char) :
  p d = false -> rstrip_with p (w ++ [d]) = w ++ [d].
Proof.
  intro Hd. induction w as [|a w IH]; cbn [app rstrip_with].
  - rewrite Hd. reflexivity.
  - rewrite IH. destruct (w ++ [d]) eqn:E; [|reflexivity].
    destruct w; discriminate.
Qed.

Lemma rstrip_with_in (p : char -> bool) (s : str) (c : char) :
  In c (rstrip_with p s) -> In c s.
Proof.
  destruct (rstrip_with_split p s) as (tail & Hs & _).
  intro H. rewrite Hs. apply in_or_app. left. exact H.
Qed.

Lemma lstrip_with_in (p : char -> bool) (s : str) (c : char) :
  In c (lstrip_with p s) -> In c s.
Proof.
  destruct (lstrip_with_suffix p s) as (lead & Hs & _).
  intro H. rewrite Hs. apply in_or_app. right. exact H.
Qed.

Lemma strip_in (s : str) (c : char) : In c (strip s) -> In c s.
Proof.
  intro H. apply (rstrip_with_in isspace), (lstrip_with_in isspace). exact H.
Qed.

(** What [strip] returns has no whitespace at either end. *)
Lemma strip_stripped (s : str) : stripped (strip s) = true.
Proof.
  unfold stripped. destruct (strip s) as [|c r] eqn:E; [reflexivity|].
  unfold strip in E. rewrite (lstrip_with_head _ _ _ _ E). cbn [negb andb].
  destruct (@exists_last _ (c :: r)) as (w & d & Hw); [discriminate|].
  rewrite Hw, last_last.
  destruct (lstrip_with_suffix isspace (rstrip_with isspace s))
    as (lead & Hs & _).
  rewrite E, Hw, app_assoc in Hs.
  rewrite (rstrip_with_last _ _ _ _ Hs). reflexivity.
Qed.

(** [strip] leaves such a string as it is. *)
Lemma strip_fixed (s : str) : stripped s = true -> strip s = s.
Proof.
  unfold stripped, strip. destruct s as [|c r]; [reflexivity|].
  intro H. apply andb_true_iff in H. destruct H as [Hc Hd].
  apply negb_true_iff in Hc, Hd.
  destruct (@exists_last _ (c :: r)) as (w & d & Hw); [discriminate|].
  rewrite Hw in Hd |- *. rewrite last_last in Hd.
  rewrite (rstrip_with_fixed _ _ _ Hd), <- Hw.
  cbn [lstrip_with]. rewrite Hc. reflexivity.
Qed.

Lemma strip_snoc_lf (s : str) : strip (s ++ [LF]) = strip s.
Proof. unfold strip. rewrite rstrip_with_app; reflexivity. Qed.

(** ** The pattern loader *)

Lemma load_patterns_fold (lines : list str) :
  forall patterns,
    fold_left load_patterns_step lines patterns =
    patterns ++ flat_map pattern_of_line lines.
Proof.
  induction lines as [|line lines IH]; intro patterns; cbn [fold_left flat_map].
  - symmetry. apply app_nil_r.
  - rewrite IH. unfold load_patterns_step, pattern_of_line.
    destruct (truthy (strip line) && negb (startswith (strip line) (lit "#"))).
    + rewrite <- app_assoc. reflexivity.
    + reflexivity.
Qed.

Lemma load_patterns_lines (content : str) :
  load_patterns content = flat_map pattern_of_line (iter_lines content).
Proof. apply (load_patterns_fold (iter_lines content) []). Qed.

(** The lines of a file have no LF before their end and no CR at all. *)
Lemma iter_lines_strip_clean (content : str) (line : str) (c : char) :
  In line (iter_lines content) -> In c (strip line) -> c <> LF /\ c <> CR.
Proof.
  intros Hline Hc. split.
  - assert (Hcases : terminated line \/ ~ In LF line).
    { destruct (file_lines_cases _ (iter_lines_shape content))
        as [Hall | (front & u & Heq & Hfront & _ & Hu)].
      - left. rewrite Forall_forall in Hall. exact (Hall line Hline).
      - rewrite Heq in Hline. apply in_app_or in Hline.
        destruct Hline as [Hin | [<- | []]].
        + left. rewrite Forall_forall in Hfront. exact (Hfront line Hin).
        + right. exact Hu. }
    destruct Hcases as [(body & -> & Hbody) | Hno]; intros ->.
    + rewrite strip_snoc_lf in Hc. exact (Hbody (strip_in _ _ Hc)).
    + exact (Hno (strip_in _ _ Hc)).
  - intros ->. exact (iter_lines_cr_free content line Hline (strip_in _ _ Hc)).
Qed.

Lemma pattern_of_line_loadable (pattern : str) :
  loadable pattern = true -> pattern_of_line (pattern ++ [LF]) = [pattern].
Proof.
  unfold loadable, pattern_of_line. rewrite !andb_true_iff.
  intros [[[Ht Hs] Hh] _].
  rewrite strip_snoc_lf, (strip_fixed _ Hs), Ht, Hh. reflexivity.
Qed.

Lemma dump_patterns_lines (pf : platform) (patterns : list str) :
  forallb loadable patterns = true ->
  iter_lines (encode_newlines pf (dump_patterns patterns)) =
  map (fun pattern => pattern ++ [LF]) patterns.
Proof.
  intro H. unfold iter_lines, dump_patterns.
  rewrite forallb_forall in H.
  rewrite read_back.
  - rewrite <- (app_nil_r (concat _)), split_lines_concat.
    + apply app_nil_r.
    + apply Forall_forall. intros line Hline.
      apply in_map_iff in Hline. destruct Hline as (pattern & <- & Hp).
      apply terminated_snoc_lf. intro Hlf.
      specialize (H pattern Hp). unfold loadable in H.
      rewrite !andb_true_iff, forallb_forall in H.
      destruct H as [_ H]. specialize (H LF Hlf). discriminate.
  - intro Hcr. apply in_concat in Hcr. destruct Hcr as (line & Hline & Hcr).
    apply in_map_iff in Hline. destruct Hline as (pattern & <- & Hp).
    apply in_app_or in Hcr. destruct Hcr as [Hcr | [Hcr | []]]; [|discriminate].
    specialize (H pattern Hp). unfold loadable in H.
    rewrite !andb_true_iff, forallb_forall in H.
    destruct H as [_ H]. specialize (H CR Hcr). discriminate.
Qed.

Lemma load_dump (pf : platform) (patterns : list str) :
  forallb loadable patterns = true ->
  load_patterns (encode_newlines pf (dump_patterns patterns)) = patterns.
Proof.
  intro H. rewrite load_patterns_lines, (dump_patterns_lines pf _ H).
  induction patterns as [|pattern patterns IH]; [reflexivity|].
  cbn [forallb] in H. apply andb_true_iff in H. destruct H as [Hp Hr].
  cbn [map flat_map]. rewrite (pattern_of_line_loadable _ Hp), (IH Hr).
  reflexivity.
Qed.

Lemma load_patterns_loadable (content : str) (pattern : str) :
  In pattern (load_patterns content) -> loadable pattern = true.
Proof.
  rewrite load_patterns_lines. intro H.
  apply in_flat_map in H. destruct H as (line & Hline & Hp).
  unfold pattern_of_line in Hp.
  destruct (truthy (strip line) && negb (startswith (strip line) (lit "#")))
    eqn:E; [|destruct Hp].
  destruct Hp as [<- | []]. unfold loadable.
  apply andb_true_iff in E. destruct E as [E1 E2].
  rewrite E1, E2, strip_stripped. cbn [andb].
  apply forallb_forall. intros c Hc.
  destruct (iter_lines_strip_clean content line c Hline Hc) as [Hlf Hcr].
  apply negb_true_iff, orb_false_iff.
  split; apply N.eqb_neq; assumption.
Qed.

(** X1: every pattern that [load_patterns] returns is non-empty, does not
    start with [#], has no whitespace at either end and contains neither
    LF nor CR. *)
Theorem loaded_patterns_well_formed (content : str) (pattern : str) :
  In pattern (load_patterns content) ->
  pattern <> [] /\
  startswith pattern (lit "#") = false /\
  strip pattern = pattern /\
  (forall c, In c pattern -> c <> LF /\ c <> CR).
Proof.
  intro H. apply load_patterns_loadable in H. unfold loadable in H.
  rewrite !andb_true_iff in H. destruct H as [[[Ht Hs] Hh] Hc].
  split; [apply truthy_nonempty; exact Ht|].
  split; [apply negb_true_iff; exact Hh|].
  split; [apply strip_fixed; exact Hs|].
  intros c Hin. rewrite forallb_forall in Hc. specialize (Hc c Hin).
  apply negb_true_iff, orb_false_iff in Hc. destruct Hc as [H1 H2].
  split; apply N.eqb_neq; assumption.
Qed.

(** X1, at a concrete pattern file: a comment, an empty line, an indented
    pattern on a CR LF line, and a last line without terminator. *)
Lemma loaded_patterns_well_formed_witness :
  In (lit "DOI:")
     (load_patterns (lit "# comment" ++ [LF; LF] ++ lit "  DOI:  " ++
                     [CR; LF] ++ lit "Copyright")) /\
  strip (lit "DOI:") = lit "DOI:".
Proof.
  assert (H : In (lit "DOI:")
     (load_patterns (lit "# comment" ++ [LF; LF] ++ lit "  DOI:  " ++
                     [CR; LF] ++ lit "Copyright")))
    by (left; reflexivity).
  split; [exact H|].
  exact (proj1 (proj2 (proj2 (loaded_patterns_well_formed _ _ H)))).
Defined.

(** X2: a list of patterns, each of them non-empty, without whitespace at
    either end, not starting with [#] and without LF or CR, written one
    per line to a pattern file, is loaded back unchanged, on either
    platform. *)
Theorem pattern_file_round_trip (pf : platform) (patterns : list str) :
  forallb loadable patterns = true ->
  load_patterns (encode_newlines pf (dump_patterns patterns)) = patterns.
Proof. apply load_dump. Qed.

(** X2, at a concrete input: the default patterns, on a file with CR LF
    line endings. *)
Lemma pattern_file_round_trip_witness :
  load_patterns (encode_newlines Windows (dump_patterns DEFAULT_PATTERNS)) =
  DEFAULT_PATTERNS.
Proof. apply pattern_file_round_trip. reflexivity. Defined.

(** X3: the patterns loaded from any file, written back one per line and
    loaded again, are the same list. *)
Theorem reload_patterns (pf : platform) (content : str) :
  load_patterns (encode_newlines pf (dump_patterns (load_patterns content))) =
  load_patterns content.
Proof.
  apply load_dump. apply forallb_forall. intros pattern H.
  exact (load_patterns_loadable content pattern H).
Qed.

(** X4: [load_patterns] returns the empty list exactly when every line of
    the file is made of whitespace or has [#] as its first character that
    is no whitespace. *)
Theorem no_patterns_loaded (content : str) :
  load_patterns content = [] <->
  (forall line, In line (iter_lines content) ->
     strip line = [] \/ startswith (strip line) (lit "#") = true).
Proof.
  rewrite load_patterns_lines. split.
  - intros H line Hline.
    assert (Hp : pattern_of_line line = []).
    { destruct (pattern_of_line line) as [|x xs] eqn:E; [reflexivity|].
      assert (Hin : In x (flat_map pattern_of_line (iter_lines content))).
      { apply in_flat_map. exists line. split; [exact Hline|].
        rewrite E. left. reflexivity. }
      rewrite H in Hin. destruct Hin. }
    unfold pattern_of_line in Hp.
    destruct (strip line) as [|c r]; [left; reflexivity|]. right.
    cbn [truthy andb] in Hp.
    destruct (startswith (c :: r) (lit "#")); [reflexivity|discriminate].
  - intro H. induction (iter_lines content) as [|line lines IH];
      [reflexivity|].
    cbn [flat_map]. rewrite IH.
    + rewrite app_nil_r. unfold pattern_of_line.
      destruct (H line (or_introl eq_refl)) as [-> | ->]; [reflexivity|].
      rewrite andb_false_r. reflexivity.
    + intros l Hl. apply H. right. exact Hl.
Qed.

(** ** Decisions and pattern lists *)

Lemma filter_all (A : Type) (f : A -> bool) (l : list A) :
  (forall x, In x l -> f x = true) -> filter f l = l.
Proof.
  induction l as [|x l IH]; intro H; [reflexivity|].
  cbn [filter]. rewrite (H x (or_introl eq_refl)), IH; [reflexivity|].
  intros y Hy. apply H. right. exact Hy.
Qed.

Lemma filter_length_le (A : Type) (f g : A -> bool) (l : list A) :
  (forall x, f x = true -> g x = true) ->
  length (filter f l) <= length (filter g l).
Proof.
  intro H. induction l as [|x l IH]; [apply le_n|].
  cbn [filter]. destruct (f x) eqn:Ef.
  - rewrite (H x Ef). cbn [length]. lia.
  - destruct (g x); cbn [length]; lia.
Qed.

(** Two pattern lists that decide alike on every record give the same
    run. *)
Lemma run_records_ext (ps qs : list str) (records : list (list str)) :
  (forall r, keeps ps r = keeps qs r) ->
  run_records ps records = run_records qs records.
Proof.
  intro H. unfold run_records. rewrite !fold_apply_record.
  rewrite (filter_ext _ _ H).
  rewrite (filter_ext (fun r => negb (keeps ps r))
                      (fun r => negb (keeps qs r))); [reflexivity|].
  intro r. rewrite H. reflexivity.
Qed.

Lemma keeps_ext (ps qs : list str) :
  (forall text, matches_boilerplate text ps = matches_boilerplate text qs) ->
  forall r, keeps ps r = keeps qs r.
Proof.
  intros H r. unfold keeps.
  destruct (extract_text_from_record r); [rewrite H|]; reflexivity.
Qed.

Lemma matches_boilerplate_incl (text : str) (ps qs : list str) :
  (forall p, In p ps -> In p qs) ->
  matches_boilerplate text ps = true -> matches_boilerplate text qs = true.
Proof.
  intros Hincl H. apply matches_boilerplate_exists in H.
  destruct H as (p & Hin & Hp). apply matches_boilerplate_exists.
  exists p. split; [apply Hincl; exact Hin | exact Hp].
Qed.

Lemma startswith_trans (text q p : str) :
  startswith text q = true -> startswith q p = true ->
  startswith text p = true.
Proof.
  rewrite !startswith_prefix. intros (r1 & ->) (r2 & ->).
  exists (r2 ++ r1). rewrite app_assoc. reflexivity.
Qed.

(** Two pattern lists each of whose patterns starts with a pattern of the
    other match the same texts. *)
Lemma matches_boilerplate_cover (text : str) (ps qs : list str) :
  (forall q, In q qs -> exists p, In p ps /\ startswith q p = true) ->
  matches_boilerplate text qs = true -> matches_boilerplate text ps = true.
Proof.
  intros Hcover H. apply matches_boilerplate_exists in H.
  destruct H as (q & Hin & Hq). destruct (Hcover q Hin) as (p & Hp & Hqp).
  apply matches_boilerplate_exists. exists p.
  split; [exact Hp | exact (startswith_trans _ _ _ Hq Hqp)].
Qed.

Lemma startswith_refl (s : str) : startswith s s = true.
Proof. apply startswith_prefix. exists []. symmetry. apply app_nil_r. Qed.

Lemma extract_some (record : list str) (text : str) :
  extract_text_from_record record = Some text ->
  exists before line after,
    record = before ++ line :: after /\
    (forall l, In l before -> startswith l TEXT_MARKER = false) /\
    startswith line TEXT_MARKER = true /\
    text = rstrip (slice_from 9 line) [CR; LF].
Proof.
  induction record as [|l record IH]; cbn [extract_text_from_record];
    [discriminate|].
  destruct (startswith l TEXT_MARKER) eqn:E.
  - intro H. injection H as <-. exists [], l, record.
    split; [reflexivity|]. split; [intros x []|]. split; [exact E|reflexivity].
  - intro H. destruct (IH H) as (before & line & after & -> & Hb & Hl & Ht).
    exists (l :: before), line, after.
    split; [reflexivity|]. split; [|split; assumption].
    intros x [<- | Hx]; [exact E | exact (Hb x Hx)].
Qed.

Lemma startswith_firstn (n : nat) (prefix : str) :
  forall text, length prefix <= n ->
    startswith (firstn n text) prefix = startswith text prefix.
Proof.
  revert n. induction prefix as [|c prefix IH]; intros n text Hn;
    [reflexivity|].
  cbn [length] in Hn. destruct n as [|n]; [lia|].
  destruct text as [|t text]; [reflexivity|].
  cbn [firstn startswith]. rewrite IH; [reflexivity | lia].
Qed.

(** X5: with the empty pattern list every record is kept: the output
    holds the block of every record and the second counter is 0. *)
Theorem empty_patterns_keep_everything (input : str) :
  filter_conllu_stream input [] =
  (concat (map record_block (segment (iter_lines input))),
   (length (segment (iter_lines input)), 0)).
Proof.
  rewrite filter_conllu_stream_records. unfold run_records.
  rewrite fold_apply_record.
  assert (H : forall r, keeps [] r = true).
  { intro r. unfold keeps.
    destruct (extract_text_from_record r); reflexivity. }
  rewrite (filter_all _ _ _ (fun r _ => H r)).
  replace (filter (fun r => negb (keeps [] r)) (segment (iter_lines input)))
    with (@nil (list str)); [reflexivity|].
  induction (segment (iter_lines input)) as [|r rs IH]; [reflexivity|].
  cbn [filter]. rewrite H. exact IH.
Qed.

(** X6: a record is dropped exactly when it has a line that starts with
    the marker and the text after the marker on the first such line, its
    trailing CR and LF removed, starts with one of the patterns. *)
Theorem dropped_records_match (patterns : list str) (record : list str) :
  keeps patterns record = false <->
  exists before line after pattern,
    record = before ++ line :: after /\
    (forall l, In l before -> startswith l TEXT_MARKER = false) /\
    startswith line TEXT_MARKER = true /\
    In pattern patterns /\
    startswith (rstrip (slice_from 9 line) [CR; LF]) pattern = true.
Proof.
  unfold keeps. split.
  - destruct (extract_text_from_record record) as [text|] eqn:E;
      [|discriminate].
    intro H. apply negb_false_iff, matches_boilerplate_exists in H.
    destruct H as (pattern & Hin & Hp).
    destruct (extract_some _ _ E) as (before & line & after & Hr & Hb & Hl & Ht).
    exists before, line, after, pattern. rewrite <- Ht. auto.
  - intros (before & line & after & pattern & -> & Hb & Hl & Hin & Hp).
    rewrite (extract_first before after line Hb Hl).
    apply negb_false_iff, matches_boilerplate_exists.
    exists pattern. auto.
Qed.

(** X7: adding patterns never keeps more: when every pattern of a list is
    in a second list, the run with the second list keeps at most as many
    records and removes at least as many. *)
Theorem more_patterns_remove_more (input : str) (ps qs : list str) :
  (forall p, In p ps -> In p qs) ->
  fst (snd (filter_conllu_stream input qs)) <=
    fst (snd (filter_conllu_stream input ps)) /\
  snd (snd (filter_conllu_stream input ps)) <=
    snd (snd (filter_conllu_stream input qs)).
Proof.
  intro Hincl. rewrite !filter_conllu_stream_records. unfold run_records.
  rewrite !fold_apply_record. cbn [fst snd Nat.add].
  assert (H : forall r, keeps qs r = true -> keeps ps r = true).
  { intros r. unfold keeps.
    destruct (extract_text_from_record r) as [text|]; [|reflexivity].
    rewrite !negb_true_iff.
    destruct (matches_boilerplate text ps) eqn:E; [|reflexivity].
    rewrite (matches_boilerplate_incl text ps qs Hincl E). discriminate. }
  split.
  - apply filter_length_le. exact H.
  - apply filter_length_le. intros r Hr.
    apply negb_true_iff in Hr. apply negb_true_iff.
    destruct (keeps qs r) eqn:E; [|reflexivity].
    rewrite (H r E) in Hr. discriminate.
Qed.

(** X7, at a concrete input: two records, one of which starts with a
    pattern of the longer list only. *)
Lemma more_patterns_remove_more_witness :
  fst (snd (filter_conllu_stream
    (lit "# text = DOI: 1" ++ [LF; LF] ++ lit "# text = Vol. 2" ++ [LF])
    [lit "Vol."; lit "DOI:"])) <=
  fst (snd (filter_conllu_stream
    (lit "# text = DOI: 1" ++ [LF; LF] ++ lit "# text = Vol. 2" ++ [LF])
    [lit "DOI:"])).
Proof.
  apply (more_patterns_remove_more
    (lit "# text = DOI: 1" ++ [LF; LF] ++ lit "# text = Vol. 2" ++ [LF])
    [lit "DOI:"] [lit "Vol."; lit "DOI:"]).
  intros p [<- | []]. right. left. reflexivity.
Defined.

(** X8: the order of the patterns and their repetitions do not matter: two
    lists with the same patterns give the same output and counters. *)
Theorem pattern_order_irrelevant (input : str) (ps qs : list str) :
  (forall p, In p ps <-> In p qs) ->
  filter_conllu_stream input ps = filter_conllu_stream input qs.
Proof.
  intro H. rewrite !filter_conllu_stream_records.
  apply run_records_ext, keeps_ext. intro text.
  apply eq_true_iff_eq. split; apply matches_boilerplate_incl;
    intros p Hp; apply H; exact Hp.
Qed.

(** X8, at a concrete input: the default patterns in reverse order. *)
Lemma pattern_order_irrelevant_witness :
  filter_conllu_stream
    (lit "# text = Volume: 3" ++ [LF; LF] ++ lit "# text = Fine." ++ [LF])
    DEFAULT_PATTERNS =
  filter_conllu_stream
    (lit "# text = Volume: 3" ++ [LF; LF] ++ lit "# text = Fine." ++ [LF])
    (rev DEFAULT_PATTERNS).
Proof.
  apply pattern_order_irrelevant. intro p. apply in_rev.
Defined.

(** X9: a pattern that starts with another pattern of the list is
    redundant: the run is the same without it. *)
Theorem longer_pattern_redundant
  (input : str) (front back : list str) (p q : str) :
  In p (front ++ back) ->
  startswith q p = true ->
  filter_conllu_stream input (front ++ q :: back) =
  filter_conllu_stream input (front ++ back).
Proof.
  intros Hp Hq. rewrite !filter_conllu_stream_records.
  apply run_records_ext, keeps_ext. intro text.
  apply eq_true_iff_eq. split.
  - apply matches_boilerplate_cover. intros x Hx.
    apply in_app_or in Hx. destruct Hx as [Hx | [<- | Hx]].
    + exists x. split; [apply in_or_app; left; exact Hx|].
      apply startswith_refl.
    + exists p. split; [exact Hp | exact Hq].
    + exists x. split; [apply in_or_app; right; exact Hx|].
      apply startswith_refl.
  - apply matches_boilerplate_incl. intros x Hx.
    apply in_app_or in Hx. apply in_or_app.
    destruct Hx as [Hx | Hx]; [left | right; right]; exact Hx.
Qed.

(** X9, at a concrete input: among the default patterns, the run of six
    underscores starts with the run of four. *)
Lemma longer_pattern_redundant_witness :
  filter_conllu_stream (lit "# text = _____ page 2" ++ [LF])
    DEFAULT_PATTERNS =
  filter_conllu_stream (lit "# text = _____ page 2" ++ [LF])
    (firstn 17 DEFAULT_PATTERNS ++ skipn 18 DEFAULT_PATTERNS).
Proof.
  apply (longer_pattern_redundant (lit "# text = _____ page 2" ++ [LF])
           (firstn 17 DEFAULT_PATTERNS) (skipn 18 DEFAULT_PATTERNS)
           (lit "____") (lit "______")).
  - vm_compute. do 16 right. left. reflexivity.
  - reflexivity.
Defined.

(** X10: whether a text matches depends only on its first [n] characters,
    [n] being at least the length of every pattern. *)
Theorem match_depends_on_beginning
  (n : nat) (s t : str) (patterns : list str) :
  (forall p, In p patterns -> length p <= n) ->
  slice_to n s = slice_to n t ->
  matches_boilerplate s patterns = matches_boilerplate t patterns.
Proof.
  unfold slice_to. intros Hlen Heq.
  induction patterns as [|p patterns IH]; [reflexivity|].
  cbn [matches_boilerplate].
  rewrite <- (startswith_firstn n p s), <- (startswith_firstn n p t), Heq;
    try (apply Hlen; left; reflexivity).
  rewrite IH; [reflexivity|].
  intros x Hx. apply Hlen. right. exact Hx.
Qed.

(** X10, at a concrete input: two texts with the same first four
    characters, and patterns of at most four characters. *)
Lemma match_depends_on_beginning_witness :
  matches_boilerplate (lit "DOI: 10.1234/x") [lit "DOI:"; lit "Vol."] =
  matches_boilerplate (lit "DOI:") [lit "DOI:"; lit "Vol."].
Proof.
  apply (match_depends_on_beginning 4).
  - intros p [<- | [<- | []]]; apply le_n.
  - reflexivity.
Defined.

(** ** Shape of the output *)

Lemma run_records_kept_output (patterns : list str) (records : list (list str)) :
  (forall r, In r records -> keeps patterns r = true) ->
  fst (run_records patterns records) = concat (map record_block records).
Proof.
  intro H. unfold run_records. rewrite fold_apply_record. cbn [fst app].
  rewrite (filter_all _ _ _ H). reflexivity.
Qed.

Lemma concat_blocks_last (records : list (list str)) :
  records <> [] ->
  exists body, concat (map record_block records) = body ++ [LF].
Proof.
  intro H. destruct (@exists_last _ records H) as (front & r & ->).
  rewrite map_app, concat_app. cbn [map concat]. unfold record_block at 2.
  rewrite app_nil_r.
  exists (concat (map record_block front) ++ concat r).
  rewrite <- app_assoc. reflexivity.
Qed.

(** X11: the output never holds a CR, it is empty exactly when no record
    is kept, and otherwise it ends with a line feed. *)
Theorem output_shape (input : str) (patterns : list str) :
  let out := fst (filter_conllu_stream input patterns) in
  let kept := fst (snd (filter_conllu_stream input patterns)) in
  ~ In CR out /\
  (out = [] <-> kept = 0) /\
  (out <> [] -> exists body, out = body ++ [LF]).
Proof.
  cbv zeta. rewrite filter_conllu_stream_records.
  split; [apply output_cr_free; apply iter_lines_cr_free|].
  unfold run_records. rewrite fold_apply_record. cbn [fst snd app Nat.add].
  destruct (filter (keeps patterns) (segment (iter_lines input)))
    as [|r rs] eqn:E.
  - split; [split; reflexivity|]. intro H. elim H. reflexivity.
  - assert (Hne : r :: rs <> []) by discriminate.
    destruct (concat_blocks_last _ Hne) as (body & Hb).
    split.
    + split; [|discriminate]. rewrite Hb. intro H.
      destruct body; discriminate.
    + intros _. exists body. exact Hb.
Qed.

Lemma last_lf_terminated (s : str) :
  last s LF = LF -> Forall terminated (split_lines s).
Proof.
  intro H.
  destruct (file_lines_cases _ (split_lines_shape s))
    as [Hall | (front & u & Heq & _ & Hu & Hlf)]; [exact Hall|].
  exfalso. apply Hlf.
  rewrite <- (concat_split_lines s), Heq, concat_app in H.
  cbn [concat] in H. rewrite app_nil_r in H.
  destruct (@exists_last _ u Hu) as (w & d & ->).
  rewrite app_assoc, last_last in H. subst d.
  apply in_or_app. right. left. reflexivity.
Qed.

(** The output of a pass over lines that are all terminated. *)
Lemma terminated_pass_shape (patterns : list str) (lines : list str) :
  Forall terminated lines ->
  let records := filter (keeps patterns) (segment lines) in
  run_records patterns (segment lines) =
    (concat (map record_block records),
     (length records,
      length (filter (fun r => negb (keeps patterns r)) (segment lines)))) /\
  Forall (fun r => r <> [] /\
                   forallb (fun l => negb (is_separator l)) r = true /\
                   Forall terminated r) records /\
  (forall r, In r records -> keeps patterns r = true).
Proof.
  intro Hterm. cbv zeta. split; [|split].
  - unfold run_records. rewrite fold_apply_record. reflexivity.
  - apply Forall_forall. intros r Hr. apply filter_In in Hr.
    apply (segment_terminated lines r Hterm). apply Hr.
  - intros r Hr. apply filter_In in Hr. apply Hr.
Qed.

(** X12: on input that is empty or ends with a line terminator, a second
    run over the output file of a first run writes the same output
    again. *)
Theorem second_pass_same_output
  (pf : platform) (input : str) (patterns : list str) :
  last (translate_newlines input) LF = LF ->
  fst (filter_conllu_stream
         (encode_newlines pf (fst (filter_conllu_stream input patterns)))
         patterns) =
  fst (filter_conllu_stream input patterns).
Proof.
  intro Hlast.
  assert (Hcr : ~ In CR (fst (filter_conllu_stream input patterns))).
  { rewrite filter_conllu_stream_records.
    apply output_cr_free. apply iter_lines_cr_free. }
  destruct (terminated_pass_shape patterns (iter_lines input)
              (last_lf_terminated _ Hlast)) as (Hrun & Hrec & Hkeeps).
  rewrite (filter_conllu_stream_records input) in Hcr |- *.
  rewrite filter_conllu_stream_records. unfold iter_lines at 1.
  rewrite (read_back pf _ Hcr).
  set (records := filter (keeps patterns) (segment (iter_lines input))) in *.
  pose proof (segment_blocks records [] Hrec eq_refl (Forall_nil _)) as Hseg.
  cbn [concat truthy] in Hseg. rewrite !app_nil_r in Hseg.
  rewrite Hrun. cbn [fst]. rewrite Hseg.
  apply (run_records_kept_output patterns records Hkeeps).
Qed.

(** X12, at a concrete input with CR LF line endings. *)
Lemma second_pass_same_output_witness :
  fst (filter_conllu_stream
         (encode_newlines Windows
            (fst (filter_conllu_stream
                    (lit "# text = Fine." ++ [CR; LF; CR; LF] ++
                     lit "# text = DOI: x" ++ [CR; LF])
                    DEFAULT_PATTERNS)))
         DEFAULT_PATTERNS) =
  fst (filter_conllu_stream
         (lit "# text = Fine." ++ [CR; LF; CR; LF] ++
          lit "# text = DOI: x" ++ [CR; LF])
         DEFAULT_PATTERNS).
Proof. apply second_pass_same_output. reflexivity. Defined.

(** X13: for every input, the output of a second run over the output file
    of a first run is the output of the first run, or that output with one
    more line feed. *)
Theorem second_pass_output
  (pf : platform) (input : str) (patterns : list str) :
  let first := fst (filter_conllu_stream input patterns) in
  let second :=
    fst (filter_conllu_stream (encode_newlines pf first) patterns) in
  second = first \/ second = first ++ [LF].
Proof.
  cbv zeta.
  assert (Hcr : ~ In CR (fst (filter_conllu_stream input patterns))).
  { rewrite filter_conllu_stream_records.
    apply output_cr_free. apply iter_lines_cr_free. }
  rewrite (filter_conllu_stream_records input) in Hcr |- *.
  destruct (first_pass_shape patterns (iter_lines input) (iter_lines_shape input))
    as (records & tail & Hout & _ & Hrec & Htail & Hterm & Hkeeps).
  rewrite filter_conllu_stream_records.
  assert (Hread :
    iter_lines (encode_newlines pf
      (fst (run_records patterns (segment (iter_lines input))))) =
    split_lines (fst (run_records patterns (segment (iter_lines input))))).
  { unfold iter_lines at 1. rewrite (read_back pf _ Hcr). reflexivity. }
  rewrite Hread, Hout.
  rewrite (segment_blocks records tail Hrec Htail Hterm).
  destruct tail as [|l tail]; cbn [truthy] in *.
  - left. etransitivity;
      [exact (run_records_kept_output patterns _ Hkeeps)|].
    rewrite !app_nil_r. reflexivity.
  - right. etransitivity;
      [exact (run_records_kept_output patterns _ Hkeeps)|].
    rewrite map_app, concat_app. cbn [map concat].
    unfold record_block at 2. rewrite app_nil_r, <- app_assoc. reflexivity.
Qed.

(** ** Every input is grouped input *)

Lemma length_concat_nonempty (A : Type) (ls : list (list A)) :
  (forall l, In l ls -> l <> []) -> length ls <= length (concat ls).
Proof.
  induction ls as [|l ls IH]; intro H; [apply le_n|].
  cbn [concat length]. rewrite length_app.
  assert (Hl : l <> []) by (apply H; left; reflexivity).
  assert (Hls : length ls <= length (concat ls))
    by (apply IH; intros x Hx; apply H; right; exact Hx).
  destruct l; [contradiction | cbn [length]; lia].
Qed.

(** X14: every list of lines is grouped input: blank lines, then groups
    of non-blank lines each followed by at least one blank line, then
    non-blank lines; so the records of any input are its groups. *)
Theorem every_input_grouped (lines : list str) :
  exists lead groups tail,
    lines = grouped_input lead groups tail /\
    forallb is_separator lead = true /\
    forallb well_grouped groups = true /\
    forallb is_content tail = true /\
    segment lines = map fst groups ++ (if truthy tail then [tail] else []).
Proof.
  assert (H : exists lead groups tail,
    lines = grouped_input lead groups tail /\
    forallb is_separator lead = true /\
    forallb well_grouped groups = true /\
    forallb is_content tail = true).
  { induction lines as [|l lines (lead & groups & tail & -> & Hl & Hg & Ht)].
    - exists [], [], []. repeat split.
    - destruct (is_separator l) eqn:El.
      + exists (l :: lead), groups, tail. cbn [forallb]. rewrite El, Hl.
        repeat split; assumption.
      + destruct lead as [|s lead].
        * destruct groups as [|[g seps] groups].
          -- exists [], [], (l :: tail). cbn [forallb]. unfold is_content at 1.
             rewrite El, Ht. repeat split.
          -- exists [], ((l :: g, seps) :: groups), tail.
             cbn [forallb] in Hg. apply andb_true_iff in Hg.
             destruct Hg as [Hg1 Hg2].
             assert (Hg3 : well_grouped (l :: g, seps) = true).
             { unfold well_grouped in Hg1 |- *.
               cbn [fst snd truthy forallb andb] in Hg1 |- *.
               rewrite !andb_true_iff in Hg1.
               destruct Hg1 as [[[_ H1] H2] H3].
               unfold is_content at 1. rewrite El, H1, H2, H3. reflexivity. }
             cbn [forallb]. rewrite Hg3, Hg2. repeat split. exact Ht.
        * exists [], (([l], s :: lead) :: groups), tail.
          assert (Hg3 : well_grouped ([l], s :: lead) = true).
          { unfold well_grouped. cbn [fst snd truthy forallb andb].
            unfold is_content. rewrite El. exact Hl. }
          cbn [forallb]. rewrite Hg3, Hg.
          split; [|repeat split; exact Ht].
          unfold grouped_input. cbn [flat_map fst snd app].
          rewrite <- !app_assoc. reflexivity. }
  destruct H as (lead & groups & tail & Hlines & Hl & Hg & Ht).
  exists lead, groups, tail. repeat split; try assumption.
  rewrite Hlines. unfold segment, grouped_input.
  rewrite (segment_from_blank lead _ Hl).
  apply segment_groups; [|exact Ht].
  apply Forall_forall. intros gs Hin.
  rewrite forallb_forall in Hg. specialize (Hg gs Hin).
  unfold well_grouped in Hg.
  rewrite !andb_true_iff, !truthy_nonempty in Hg. tauto.
Qed.

(** X15: no record is empty and no record holds a blank line; hence the
    two counters together never exceed the number of non-blank lines of
    the input. *)
Theorem counters_bounded (input : str) (patterns : list str) :
  (forall record, In record (segment (iter_lines input)) ->
     record <> [] /\ forallb is_content record = true) /\
  fst (snd (filter_conllu_stream input patterns)) +
  snd (snd (filter_conllu_stream input patterns)) <=
  length (filter is_content (iter_lines input)).
Proof.
  assert (H : forall record, In record (segment (iter_lines input)) ->
     record <> [] /\ forallb is_content record = true).
  { intros record Hin.
    destruct (segment_from_records (iter_lines input) [] record eq_refl Hin)
      as (H1 & H2 & _).
    split; assumption. }
  split; [exact H|].
  rewrite filter_conllu_stream_records. unfold run_records.
  rewrite fold_apply_record. cbn [fst snd Nat.add].
  rewrite filter_partition_length.
  unfold is_content.
  rewrite <- (app_nil_l (filter _ (iter_lines input))).
  rewrite <- (concat_segment_from (iter_lines input) []).
  apply length_concat_nonempty. intros l Hl. apply (H l Hl).
Qed.

(** ** The driver *)

Lemma loadable_nonempty (patterns : list str) :
  forallb loadable patterns = true -> ~ In [] patterns.
Proof.
  intros H Hin. rewrite forallb_forall in H. specialize (H [] Hin).
  discriminate.
Qed.

(** No non-empty pattern is the beginning of the empty text. *)
Lemma matches_empty_text (patterns : list str) :
  ~ In [] patterns -> matches_boilerplate [] patterns = false.
Proof.
  intro H. destruct (matches_boilerplate [] patterns) eqn:E; [|reflexivity].
  apply matches_boilerplate_exists in E. destruct E as (p & Hin & Hp).
  destruct p as [|c p]; [contradiction | discriminate].
Qed.

Lemma choose_patterns_loadable
  (fs : Driver.filesystem) (args : Driver.arguments)
  (patterns : list str) (err : str) :
  Driver.choose_patterns fs args = Some (patterns, err) ->
  forallb loadable patterns = true.
Proof.
  unfold Driver.choose_patterns.
  destruct (Driver.arg_patterns args) as [path|];
    [destruct (truthy path);
     [destruct (Driver.read_text fs path) as [content|]; [|discriminate]|]|];
    intro H; injection H as <- _; try reflexivity.
  apply forallb_forall. intros pattern Hin.
  exact (load_patterns_loadable content pattern Hin).
Qed.


(** X17: every pattern list that [main] passes to [filter_conllu_stream],
    the default one or one loaded from a pattern file, holds only patterns
    that are non-empty, without whitespace at either end, not starting
    with [#] and without LF or CR; hence a run started by [main] keeps
    every record whose text field is empty. *)
Theorem main_patterns_well_formed
  (fs : Driver.filesystem) (args : Driver.arguments)
  (input_path output_path : str) (patterns : list str) :
  snd (Driver.main fs args) =
    Driver.Filtering input_path output_path patterns ->
  forallb loadable patterns = true /\
  ~ In [] patterns /\
  (forall record,
     extract_text_from_record record = Some [] ->
     keeps patterns record = true).
Proof.
  intro H.
  assert (Hl : forallb loadable patterns = true).
  { unfold Driver.main in H.
    destruct (Driver.choose_patterns fs args) as [[chosen err]|] eqn:E;
      [|discriminate].
    destruct (negb (Driver.path_exists fs (Driver.arg_input args)));
      [discriminate|].
    destruct (Driver.same_path fs (Driver.arg_input args)
                (Driver.arg_output args)); [discriminate|].
    injection H as _ _ <-.
    exact (choose_patterns_loadable fs args chosen err E). }
  split; [exact Hl|]. split; [exact (loadable_nonempty _ Hl)|].
  intros record Hr. unfold keeps. rewrite Hr.
  rewrite (matches_empty_text _ (loadable_nonempty _ Hl)). reflexivity.
Qed.

(** X17, at a concrete run: a pattern file with a comment, an empty line
    and an indented pattern, and a record whose text field is empty. *)
Lemma main_patterns_well_formed_witness :
  let fs := {| Driver.read_text := fun path =>
                 Some (lit "# journal" ++ [LF; LF] ++ lit "  DOI:" ++ [LF]);
               Driver.path_exists := fun path => true;
               Driver.same_path := fun a b => false |} in
  let args := {| Driver.arg_input := lit "in.conllu";
                 Driver.arg_output := lit "out.conllu";
                 Driver.arg_patterns := Some (lit "patterns.txt");
                 Driver.arg_verbose := false |} in
  snd (Driver.main fs args) =
    Driver.Filtering (lit "in.conllu") (lit "out.conllu") [lit "DOI:"] /\
  keeps [lit "DOI:"] [lit "# text = " ++ [LF]; lit "1 _" ++ [LF]] = true.
Proof.
  cbv zeta. split; [reflexivity|].
  apply (proj2 (proj2 (main_patterns_well_formed
    {| Driver.read_text := fun path =>
         Some (lit "# journal" ++ [LF; LF] ++ lit "  DOI:" ++ [LF]);
       Driver.path_exists := fun path => true;
       Driver.same_path := fun a b => false |}
    {| Driver.arg_input := lit "in.conllu";
       Driver.arg_output := lit "out.conllu";
       Driver.arg_patterns := Some (lit "patterns.txt");
       Driver.arg_verbose := false |}
    (lit "in.conllu") (lit "out.conllu") [lit "DOI:"] eq_refl))).
  reflexivity.
Defined.
